(** * resocks relay: the outbound relay loop of [relay.go]

    A shallow embedding of [clientTLSConfig], [connectBackAndRelay] and
    [runRemoteProxyRelay].  The pure part (the trust-policy switch) is a
    plain function.  The effectful part talks to the network, the terminal
    and the clock and may loop forever, so it is an interaction tree over
    the calls the Go code makes; properties of its executions are stated on
    the finite traces of that tree. *)

From Stdlib Require Import String Ascii List ZArith Bool Lia.
From ITree Require Import ITree ITreeFacts Interp.Traces Axioms.
From Paco Require Import paco.
Import ListNotations.
Import ITreeNotations.
Local Open Scope string_scope.
Local Open Scope itree_scope.

(** ** Go values *)

(** Go's [error] values as this file builds them: a plain message
    ([errors.New], [fmt.Errorf] without [%w], errors of other packages) or
    the [*fmt.wrapError] made by [fmt.Errorf("...: %w", err)], which keeps
    the formatted message and the wrapped error. *)
Inductive error : Type :=
| errorString (msg : string)
| wrapError (msg : string) (err : error).

(** [err.Error()] *)
Definition Error (e : error) : string :=
  match e with
  | errorString msg => msg
  | wrapError msg _ => msg
  end.

(** [errors.Unwrap(err)] *)
Definition Unwrap (e : error) : option error :=
  match e with
  | errorString _ => None
  | wrapError _ err => Some err
  end.

(** [fmt.Errorf(stage + ": %w", err)] *)
Definition Errorf_w (stage : string) (err : error) : error :=
  wrapError (stage ++ ": " ++ Error err) err.

(** A Go [(T, error)] result pair. *)
Inductive result (A : Type) : Type :=
| Ok (a : A)
| Err (err : error).
Arguments Ok {A} a.
Arguments Err {A} err.

(** [time.Duration]: an int64 count of nanoseconds.  The code only compares
    it with 0 and passes it on, so no arithmetic can wrap. *)
Definition Duration : Type := Z.

(** [connectionKey == ""] *)
Definition is_empty (s : string) : bool :=
  match s with
  | EmptyString => true
  | String _ _ => false
  end.

Definition newline : string := String (ascii_of_nat 10) EmptyString.

(** ** [crypto/tls] configuration *)

Record Certificate : Type := mkCertificate {
  CertChain : list string;
  PrivateKey : string
}.

(** The fields of [tls.Config] a client configuration uses. The zero value
    of each is Go's: nil, the empty string, false, 0. *)
Record Config : Type := mkConfig {
  Certificates : list Certificate;
  RootCAs : option (list string);
  NextProtos : list string;
  ServerName : string;
  InsecureSkipVerify : bool;
  MinVersion : Z;
  MaxVersion : Z
}.

(** [tls.Config{}] *)
Definition zeroConfig : Config :=
  mkConfig [] None [] EmptyString false 0 0.

(** [cfg.InsecureSkipVerify = b] *)
Definition set_InsecureSkipVerify (b : bool) (cfg : Config) : Config :=
  mkConfig (Certificates cfg) (RootCAs cfg) (NextProtos cfg) (ServerName cfg)
           b (MinVersion cfg) (MaxVersion cfg).

(** [cfg.ServerName = name] *)
Definition set_ServerName (name : string) (cfg : Config) : Config :=
  mkConfig (Certificates cfg) (RootCAs cfg) (NextProtos cfg) name
           (InsecureSkipVerify cfg) (MinVersion cfg) (MaxVersion cfg).

(** ** Connections, sessions and the calls of the relay *)

(** [*tls.Conn], with what [conn.RemoteAddr()] answers. *)
Record Conn : Type := mkConn {
  conn_id : nat;
  RemoteAddr : string
}.

(** [*yamux.Session] and [*socks5.Server], by identity. *)
Definition Session : Type := nat.
Definition SocksServer : Type := nat.

(** An operand of [fmt.Printf]. *)
Inductive arg : Type :=
| AString (s : string)
| AError (e : error)
| ADuration (d : Duration).

(** The calls [relay.go] makes to the outside, each with the type of what
    it gives back.  [DialWithDialer timeout network address config] is
    [tls.DialWithDialer(&net.Dialer{Timeout: timeout}, network, address,
    config)]; [YamuxServer] is [yamux.Server], [Socks5New] is
    [socks5.New(&socks5.Config{})], [Serve server l] is [server.Serve(l)]
    and returns nil or an error.  The two [Close] calls return an error
    that the code drops ([//nolint:errcheck]). *)
Variant relayE (YamuxConfig : Type) : Type -> Type :=
| DialWithDialer (timeout : Duration) (network address : string)
                 (config : Config) : relayE YamuxConfig (result Conn)
| Printf (format : string) (args : list arg) : relayE YamuxConfig unit
| ConnClose (conn : Conn) : relayE YamuxConfig unit
| YamuxServer (conn : Conn) (config : YamuxConfig)
  : relayE YamuxConfig (result Session)
| SessionClose (session : Session) : relayE YamuxConfig unit
| Socks5New : relayE YamuxConfig (result SocksServer)
| Serve (server : SocksServer) (l : Session)
  : relayE YamuxConfig (option error)
| Sleep (d : Duration) : relayE YamuxConfig unit.
Arguments DialWithDialer {YamuxConfig}.
Arguments Printf {YamuxConfig}.
Arguments ConnClose {YamuxConfig}.
Arguments YamuxServer {YamuxConfig}.
Arguments SessionClose {YamuxConfig}.
Arguments Socks5New {YamuxConfig}.
Arguments Serve {YamuxConfig}.
Arguments Sleep {YamuxConfig}.

(** [defer cleanup] followed by the rest of the function body: the
    deferred call runs once the body has produced its return value, so
    nested defers run last-in first-out. *)
Definition defer {E : Type -> Type} {R : Type}
  (cleanup : itree E unit) (body : itree E R) : itree E R :=
  r <- body ;; cleanup ;; Ret r.

Section Relay.

(** Functions and types of the repository that [relay.go] calls and that
    live in other files: the parsed connection key, its parser, the
    verified client configuration built from it, and the multiplexer
    configuration. *)
Variable ConnectionKey : Type.
Variable ParseConnectionKey : string -> result ConnectionKey.
Variable ClientTLSConfig : ConnectionKey -> result Config.
Variable YamuxConfig : Type.
Variable yamuxCfg : YamuxConfig.

(** [clientTLSConfig]: the cases of a Go [switch] are tried top to bottom
    and [default] runs when none of them holds, wherever it is written. *)
Definition clientTLSConfig (connectionKey : string) (insecure : bool)
  : result Config :=
  if negb insecure && is_empty connectionKey then
    Err (errorString "connection key is required")
  else if insecure && is_empty connectionKey then
    Ok (set_InsecureSkipVerify true zeroConfig)
  else if insecure && negb (is_empty connectionKey) then
    match ParseConnectionKey connectionKey with
    | Err err => Err (Errorf_w "parse connection key" err)
    | Ok key =>
        match ClientTLSConfig key with
        | Err err => Err (Errorf_w "configure TLS" err)
        | Ok cfg =>
            Ok (set_ServerName EmptyString (set_InsecureSkipVerify true cfg))
        end
    end
  else
    match ParseConnectionKey connectionKey with
    | Err err => Err (Errorf_w "parse connection key" err)
    | Ok key =>
        match ClientTLSConfig key with
        | Err err => Err (Errorf_w "configure TLS" err)
        | Ok cfg => Ok cfg
        end
    end.

(** [connectBackAndRelay] *)
Definition connectBackAndRelay (tlsConfig : Config) (connectBackAddr : string)
  (timeout : Duration) : itree (relayE YamuxConfig) (option error) :=
  r <- ITree.trigger (DialWithDialer timeout "tcp" connectBackAddr tlsConfig) ;;
  match r with
  | Err err => Ret (Some (Errorf_w "dial" err))
  | Ok conn =>
      ITree.trigger (Printf ("connected to %s" ++ newline)
                            [AString (RemoteAddr conn)]) ;;
      defer (ITree.trigger (ConnClose conn))
        (r <- ITree.trigger (YamuxServer conn yamuxCfg) ;;
         match r with
         | Err err => Ret (Some (Errorf_w "initialize multiplexer" err))
         | Ok yamuxServer =>
             defer (ITree.trigger (SessionClose yamuxServer))
               (r <- ITree.trigger Socks5New ;;
                match r with
                | Err err => Ret (Some (Errorf_w "initialize socks5 server" err))
                | Ok socksServer =>
                    err <- ITree.trigger (Serve socksServer yamuxServer) ;;
                    match err with
                    | Some err => Ret (Some (Errorf_w "socks5 server" err))
                    | None => Ret None
                    end
                end)
         end)
  end.

(** One turn of the [for] loop of [runRemoteProxyRelay].  [returned] is
    [Some ret] when the first [if] has executed [return ret]; the turn ends
    in [inr ret] for a [return] and in [inl tt] to go round again. *)
Definition relay_iteration (tlsConfig : Config) (connectBackAddr : string)
  (timeout reconnectAfter : Duration) (_ : unit)
  : itree (relayE YamuxConfig) (unit + option error) :=
  err <- connectBackAndRelay tlsConfig connectBackAddr timeout ;;
  returned <- match err with
              | Some err =>
                  if (reconnectAfter =? 0)%Z then Ret (Some (Some err))
                  else
                    (ITree.trigger (Printf ("error: %v" ++ newline)
                                           [AError err]) ;;
                     Ret None)
              | None => Ret None
              end ;;
  match returned with
  | Some ret => Ret (inr ret)
  | None =>
      if (reconnectAfter =? 0)%Z then Ret (inr None)
      else
        (ITree.trigger (Printf ("reconnecting after %v" ++ newline)
                               [ADuration reconnectAfter]) ;;
         ITree.trigger (Sleep reconnectAfter) ;;
         Ret (inl tt))
  end.

(** The [for] loop of [runRemoteProxyRelay]. *)
Definition relay_loop (tlsConfig : Config) (connectBackAddr : string)
  (timeout reconnectAfter : Duration)
  : itree (relayE YamuxConfig) (option error) :=
  ITree.iter
    (relay_iteration tlsConfig connectBackAddr timeout reconnectAfter) tt.

(** [runRemoteProxyRelay] *)
Definition runRemoteProxyRelay (connectBackAddr connectionKey : string)
  (timeout reconnectAfter : Duration) (insecure : bool)
  : itree (relayE YamuxConfig) (option error) :=
  match clientTLSConfig connectionKey insecure with
  | Err err => Ret (Some (Errorf_w "build TLS config" err))
  | Ok tlsConfig =>
      relay_loop tlsConfig connectBackAddr timeout reconnectAfter
  end.

End Relay.

(** ** Executions as traces, and monitors over them

    A property of every execution is given by a monitor: a state, the
    calls allowed in each state, and the state after a call has answered.
    [accepts] runs a monitor along a finite trace (the library's [trace]:
    returned, cut anywhere, or inside a call that has not answered);
    [safe] says the same of a whole tree, loops included. *)

Section Monitor.

Context {E : Type -> Type} {St : Type}.
Variable allowed : St -> forall X, E X -> Prop.
Variable next : St -> forall X, E X -> X -> St.

Fixpoint accepts {R : Type} (Q : St -> R -> Prop) (s : St) (tr : @trace E R)
  : Prop :=
  match tr with
  | TEnd => True
  | TRet r => Q s r
  | TEventEnd e => allowed s _ e
  | TEventResponse e x tr' => allowed s _ e /\ accepts Q (next s _ e x) tr'
  end.

Definition safeF {R : Type} (Q : St -> R -> Prop)
  (sim : St -> itree E R -> Prop) (s : St) (ot : itree' E R) : Prop :=
  match ot with
  | RetF r => Q s r
  | TauF t => sim s t
  | VisF e k => allowed s _ e /\ forall x, sim (next s _ e x) (k x)
  end.

Definition safe_ {R : Type} (Q : St -> R -> Prop)
  (sim : St -> itree E R -> Prop) (s : St) (t : itree E R) : Prop :=
  safeF Q sim s (observe t).

Definition safe {R : Type} (Q : St -> R -> Prop) : St -> itree E R -> Prop :=
  paco2 (safe_ Q) bot2.

End Monitor.

(** The tree never returns: no trace of it ends in a result. *)
Definition never_returns {E : Type -> Type} {R : Type} (t : itree E R) : Prop :=
  forall tr, is_trace t tr -> trace_ret tr = None.

(** The tree makes no call at all and returns [r]. *)
Definition returns_at_once {E : Type -> Type} {R : Type} (t : itree E R)
  (r : R) : Prop :=
  forall tr, is_trace t tr -> tr = TEnd \/ tr = TRet r.

(** ** What the relay is expected to do, in the words of its description *)

Section Expected.

Variable ConnectionKey : Type.
Variable ParseConnectionKey : string -> result ConnectionKey.
Variable ClientTLSConfig : ConnectionKey -> result Config.
Variable YamuxConfig : Type.
Variable yamuxCfg : YamuxConfig.

(** The verified client configuration of a key: the key parsed, then the
    configuration built from it, a failure of either step wrapped with its
    stage. *)
Definition verified_config (connectionKey : string) : result Config :=
  match ParseConnectionKey connectionKey with
  | Err err => Err (Errorf_w "parse connection key" err)
  | Ok key =>
      match ClientTLSConfig key with
      | Err err => Err (Errorf_w "configure TLS" err)
      | Ok cfg => Ok cfg
      end
  end.

(** The ways one dial-and-serve attempt can end, with what the outside
    answered on the way. *)
Inductive outcome : Type :=
| DialFailed (err : error)
| MuxFailed (conn : Conn) (err : error)
| SocksFailed (conn : Conn) (session : Session) (err : error)
| ServeFailed (conn : Conn) (session : Session) (server : SocksServer)
              (err : error)
| ServeClean (conn : Conn) (session : Session) (server : SocksServer).

(** The error the attempt hands back: the failure wrapped with its stage,
    or nil after a clean end of the session. *)
Definition attempt_result (o : outcome) : option error :=
  match o with
  | DialFailed err => Some (Errorf_w "dial" err)
  | MuxFailed _ err => Some (Errorf_w "initialize multiplexer" err)
  | SocksFailed _ _ err => Some (Errorf_w "initialize socks5 server" err)
  | ServeFailed _ _ _ err => Some (Errorf_w "socks5 server" err)
  | ServeClean _ _ _ => None
  end.

Definition failed (o : outcome) : Prop := attempt_result o <> None.

Section Traces.

Variable tlsConfig : Config.
Variable connectBackAddr : string.
Variable timeout : Duration.

Definition dial_call : relayE YamuxConfig (result Conn) :=
  DialWithDialer timeout "tcp" connectBackAddr tlsConfig.

Definition connected_line (conn : Conn) : relayE YamuxConfig unit :=
  Printf ("connected to %s" ++ newline) [AString (RemoteAddr conn)].

(** The calls of one attempt that ends as [o], each with its answer,
    followed by [rest]: after a dial that succeeded the session, if there
    is one, is closed first and the connection last. *)
Definition attempt_trace {R : Type} (o : outcome)
  (rest : @trace (relayE YamuxConfig) R) : @trace (relayE YamuxConfig) R :=
  match o with
  | DialFailed err => TEventResponse dial_call (Err err) rest
  | MuxFailed conn err =>
      TEventResponse dial_call (Ok conn)
        (TEventResponse (connected_line conn) tt
           (TEventResponse (YamuxServer conn yamuxCfg) (Err err)
              (TEventResponse (ConnClose conn) tt rest)))
  | SocksFailed conn session err =>
      TEventResponse dial_call (Ok conn)
        (TEventResponse (connected_line conn) tt
           (TEventResponse (YamuxServer conn yamuxCfg) (Ok session)
              (TEventResponse Socks5New (Err err)
                 (TEventResponse (SessionClose session) tt
                    (TEventResponse (ConnClose conn) tt rest)))))
  | ServeFailed conn session server err =>
      TEventResponse dial_call (Ok conn)
        (TEventResponse (connected_line conn) tt
           (TEventResponse (YamuxServer conn yamuxCfg) (Ok session)
              (TEventResponse Socks5New (Ok server)
                 (TEventResponse (Serve server session) (Some err)
                    (TEventResponse (SessionClose session) tt
                       (TEventResponse (ConnClose conn) tt rest))))))
  | ServeClean conn session server =>
      TEventResponse dial_call (Ok conn)
        (TEventResponse (connected_line conn) tt
           (TEventResponse (YamuxServer conn yamuxCfg) (Ok session)
              (TEventResponse Socks5New (Ok server)
                 (TEventResponse (Serve server session) None
                    (TEventResponse (SessionClose session) tt
                       (TEventResponse (ConnClose conn) tt rest))))))
  end.

(** One turn of the loop with reconnect enabled: the attempt, the report
    of its error if it had one, the reconnect line, the sleep of
    [reconnectAfter]. *)
Definition round_trace {R : Type} (reconnectAfter : Duration) (o : outcome)
  (rest : @trace (relayE YamuxConfig) R) : @trace (relayE YamuxConfig) R :=
  attempt_trace o
    (let after_report :=
       TEventResponse (Printf ("reconnecting after %v" ++ newline)
                              [ADuration reconnectAfter]) tt
         (TEventResponse (Sleep reconnectAfter) tt rest) in
     match attempt_result o with
     | Some err =>
         TEventResponse (Printf ("error: %v" ++ newline) [AError err]) tt
           after_report
     | None => after_report
     end).

Definition rounds_trace {R : Type} (reconnectAfter : Duration)
  (os : list outcome) (rest : @trace (relayE YamuxConfig) R)
  : @trace (relayE YamuxConfig) R :=
  fold_right (round_trace reconnectAfter) rest os.

(** *** The dial phase of one attempt, as a monitor *)

Inductive dial_phase : Type :=
| BeforeDial
| DialRefused (err : error)
| Connected (conn : Conn)
| Relaying.

(** Before the dial only the dial itself may be called, with the
    configured timeout, address and TLS configuration; after a failed dial
    nothing; after a successful one the connected line comes first, and no
    further dial follows. *)
Definition dial_allowed (s : dial_phase) (X : Type) (e : relayE YamuxConfig X)
  : Prop :=
  match s with
  | BeforeDial =>
      match e with
      | DialWithDialer t network addr config =>
          t = timeout /\ network = "tcp" /\ addr = connectBackAddr
          /\ config = tlsConfig
      | _ => False
      end
  | DialRefused _ => False
  | Connected conn =>
      match e with
      | Printf format args =>
          format = "connected to %s" ++ newline
          /\ args = [AString (RemoteAddr conn)]
      | _ => False
      end
  | Relaying =>
      match e with
      | DialWithDialer _ _ _ _ => False
      | _ => True
      end
  end.

Definition dial_next (s : dial_phase) (X : Type) (e : relayE YamuxConfig X)
  : X -> dial_phase :=
  match e in relayE _ X return X -> dial_phase with
  | DialWithDialer _ _ _ _ =>
      fun r => match s, r with
               | BeforeDial, Ok conn => Connected conn
               | BeforeDial, Err err => DialRefused err
               | _, _ => s
               end
  | Printf _ _ =>
      fun _ => match s with
               | Connected _ => Relaying
               | _ => s
               end
  | _ => fun _ => s
  end.

(** A refused dial is handed back wrapped with the dial stage. *)
Definition dial_returned (s : dial_phase) (r : option error) : Prop :=
  match s with
  | BeforeDial => False
  | DialRefused err => r = Some (Errorf_w "dial" err)
  | Connected _ => False
  | Relaying => True
  end.

End Traces.

(** *** What is open, as a monitor *)

Record resources : Type := mkResources {
  open_conn : option Conn;
  open_session : option Session
}.

Definition released : resources := mkResources None None.

(** One connection and one session at most: a dial needs everything
    closed, the multiplexer is started on the open connection, the server
    is served on the open session, the session is closed before the
    connection, and the loop sleeps with everything closed. *)
Definition resources_allowed (s : resources) (X : Type)
  (e : relayE YamuxConfig X) : Prop :=
  match e with
  | DialWithDialer _ _ _ _ => open_conn s = None /\ open_session s = None
  | YamuxServer conn _ => open_conn s = Some conn /\ open_session s = None
  | Serve _ l => open_session s = Some l
  | SessionClose session => open_session s = Some session
  | ConnClose conn => open_conn s = Some conn /\ open_session s = None
  | Sleep _ => open_conn s = None /\ open_session s = None
  | Printf _ _ => True
  | Socks5New => True
  end.

Definition resources_next (s : resources) (X : Type)
  (e : relayE YamuxConfig X) : X -> resources :=
  match e in relayE _ X return X -> resources with
  | DialWithDialer _ _ _ _ =>
      fun r => match r with
               | Ok conn => mkResources (Some conn) (open_session s)
               | Err _ => s
               end
  | YamuxServer _ _ =>
      fun r => match r with
               | Ok session => mkResources (open_conn s) (Some session)
               | Err _ => s
               end
  | SessionClose _ => fun _ => mkResources (open_conn s) None
  | ConnClose _ => fun _ => mkResources None (open_session s)
  | _ => fun _ => s
  end.

(** *** The reconnect delay, as a monitor without state *)

Definition delay_allowed (reconnectAfter : Duration) (_ : unit) (X : Type)
  (e : relayE YamuxConfig X) : Prop :=
  match e with
  | Sleep d => d = reconnectAfter
  | _ => True
  end.

Definition delay_next (_ : unit) (X : Type) (e : relayE YamuxConfig X)
  (_ : X) : unit := tt.

End Expected.

(** ** Counting the calls of an execution *)



Section Budget.

Context {E : Type -> Type}.
Variable forbidden : forall X, E X -> bool.
Variable limit : nat.



End Budget.

Section MoreExpected.

Variable YamuxConfig : Type.
Variable yamuxCfg : YamuxConfig.


(** *** What one attempt hands from call to call, as a monitor *)

Record handoff : Type := mkHandoff {
  dialed_conn : option Conn;
  started_session : option Session;
  made_server : option SocksServer
}.

Definition nothing_yet : handoff := mkHandoff None None None.

(** The multiplexer is started on the connection the dial gave, with
    [yamuxCfg]; the SOCKS5 server is made only once a session exists; the
    server that was made is served on the session that was started. *)
Definition handoff_allowed (s : handoff) (X : Type)
  (e : relayE YamuxConfig X) : Prop :=
  match e with
  | DialWithDialer _ _ _ _ => dialed_conn s = None
  | YamuxServer conn config =>
      dialed_conn s = Some conn /\ config = yamuxCfg
      /\ started_session s = None
  | Socks5New => started_session s <> None /\ made_server s = None
  | Serve server l => made_server s = Some server /\ started_session s = Some l
  | SessionClose session => started_session s = Some session
  | ConnClose conn => dialed_conn s = Some conn
  | Printf _ _ => True
  | Sleep _ => True
  end.

Definition handoff_next (s : handoff) (X : Type) (e : relayE YamuxConfig X)
  : X -> handoff :=
  match e in relayE _ X return X -> handoff with
  | DialWithDialer _ _ _ _ =>
      fun r => match r with
               | Ok conn =>
                   mkHandoff (Some conn) (started_session s) (made_server s)
               | Err _ => s
               end
  | YamuxServer _ _ =>
      fun r => match r with
               | Ok session =>
                   mkHandoff (dialed_conn s) (Some session) (made_server s)
               | Err _ => s
               end
  | Socks5New =>
      fun r => match r with
               | Ok server =>
                   mkHandoff (dialed_conn s) (started_session s) (Some server)
               | Err _ => s
               end
  | _ => fun _ => s
  end.

(** *** Where the relay dials, as a monitor without state *)



(** *** What the relay says before it sleeps, as a monitor *)

(** The state is the operands of the reconnect line when that line is the
    last call made, and nothing otherwise; a sleep is allowed only of the
    duration just announced. *)
Definition announce_allowed (s : option (list arg)) (X : Type)
  (e : relayE YamuxConfig X) : Prop :=
  match e with
  | Sleep d => s = Some [ADuration d]
  | _ => True
  end.

Definition announce_next (s : option (list arg)) (X : Type)
  (e : relayE YamuxConfig X) (_ : X) : option (list arg) :=
  match e with
  | Printf format args =>
      if String.eqb format ("reconnecting after %v" ++ newline)
      then Some args else None
  | _ => None
  end.

(** The stages an error returned by the relay can be wrapped with. *)
Definition relay_stages : list string :=
  ["build TLS config"; "dial"; "initialize multiplexer";
   "initialize socks5 server"; "socks5 server"].

End MoreExpected.

(** ** The command around the relay: [relayCommand] *)




Section Command.

Variable ConnectionKey : Type.
Variable ParseConnectionKey : string -> result ConnectionKey.
Variable ClientTLSConfig : ConnectionKey -> result Config.
Variable YamuxConfig : Type.
Variable yamuxCfg : YamuxConfig.

(** More of the repository that lives in other files: the default port and
    the function that adds it to an address, and the lookup of the key in
    the environment with its fallback. *)
Variable Port : Type.
Variable DefaultListenPort : Port.
Variable withDefaultPort : string -> Port -> string.
Variable fromEnvWithFallback : string -> string -> string.
Variable ConnectionKeyEnvVariable : string.
Variable defaultConnectionKey : string.



End Command.

(** ** A concrete environment to run the definitions in *)

Module Sample.

(** A parser that refuses one key, and a client configuration that carries
    a certificate made from the key and pins the server name. *)
Definition parse (s : string) : result string :=
  if String.eqb s "malformed" then Err (errorString "invalid connection key")
  else Ok s.

Definition client (key : string) : result Config :=
  Ok (mkConfig [mkCertificate [key] key] (Some [key]) [] "resocks" false 772 0).

Definition five_seconds : Duration := 5000000000%Z.

Definition one_second : Duration := 1000000000%Z.

Definition config (connectionKey : string) (insecure : bool) : result Config :=
  clientTLSConfig string parse client connectionKey insecure.

Definition relay (connectionKey : string) (reconnectAfter : Duration)
  (insecure : bool) : itree (relayE unit) (option error) :=
  runRemoteProxyRelay string parse client unit tt "listener:4080" connectionKey
                      five_seconds reconnectAfter insecure.

Definition insecure_config : Config :=
  mkConfig [] None [] EmptyString true 0 0.

Definition attempt : itree (relayE unit) (option error) :=
  connectBackAndRelay unit tt insecure_config "listener:4080" five_seconds.

Definition peer : Conn := mkConn 3 "203.0.113.7:4080".

Definition verified : Config :=
  mkConfig [mkCertificate ["k3y"] "k3y"] (Some ["k3y"]) [] "resocks" false
           772 0.

Definition refused : error := errorString "connection refused".

Definition reset : error := errorString "connection reset by peer".





End Sample.

(** ** Proof rules for monitors *)

Section MonitorFacts.

Context {E : Type -> Type} {St : Type}.
Variable allowed : St -> forall X, E X -> Prop.
Variable next : St -> forall X, E X -> X -> St.

Lemma safe_mon {R : Type} (Q : St -> R -> Prop) : monotone2 (safe_ allowed next Q).
Proof.
  intros s t r r' H LE. unfold safe_, safeF in *.
  destruct (observe t); [assumption | auto | ].
  destruct H as [Ha Hk]. split; auto.
Qed.
#[local] Hint Resolve safe_mon : paco.

Lemma safe_ret {R : Type} (Q : St -> R -> Prop) s (r : R) :
  Q s r -> safe allowed next Q s (Ret r).
Proof. intros H. pfold. exact H. Qed.

Lemma safe_vis {R X : Type} (Q : St -> R -> Prop) s (e : E X) k :
  allowed s _ e ->
  (forall x, safe allowed next Q (next s _ e x) (k x)) ->
  safe allowed next Q s (Vis e k).
Proof. intros Ha Hk. pfold. split; [exact Ha | intros x; left; apply Hk]. Qed.

Lemma safe_bind {A R : Type} (P : St -> A -> Prop) (Q : St -> R -> Prop) :
  forall s (t : itree E A) (k : A -> itree E R),
    safe allowed next P s t ->
    (forall s' a, P s' a -> safe allowed next Q s' (k a)) ->
    safe allowed next Q s (ITree.bind t k).
Proof.
  pcofix CIH. intros s t k Ht Hk.
  punfold Ht. unfold safe_, safeF in Ht.
  pfold. unfold safe_. rewrite observe_bind.
  destruct (observe t) as [a | t' | X e h].
  - specialize (Hk _ _ Ht). punfold Hk.
    eapply safe_mon; [exact Hk | ].
    intros s' t' [H | []]. left. eapply paco2_mon; [exact H | intros ? ? []].
  - destruct Ht as [Ht | []]. cbn. right. apply CIH; assumption.
  - destruct Ht as [Ha Hh]. cbn. split; [exact Ha | ].
    intros x. right. destruct (Hh x) as [Hx | []]. apply CIH; assumption.
Qed.

(** A call followed by the rest of the code. *)
Lemma safe_call {X R : Type} (Q : St -> R -> Prop) s (e : E X)
  (k : X -> itree E R) :
  allowed s _ e ->
  (forall x, safe allowed next Q (next s _ e x) (k x)) ->
  safe allowed next Q s (ITree.bind (ITree.trigger e) k).
Proof.
  intros Ha Hk.
  apply safe_bind with (P := fun s' x => s' = next s _ e x).
  - apply safe_vis; [exact Ha | intros x; apply safe_ret; reflexivity].
  - intros s' x ->. apply Hk.
Qed.

(** A deferred call runs after the body, on every way out of it. *)
Lemma safe_defer {R : Type} (P Q : St -> R -> Prop) s
  (cleanup : E unit) (body : itree E R) :
  safe allowed next P s body ->
  (forall s' r, P s' r ->
     allowed s' _ cleanup /\ Q (next s' _ cleanup tt) r) ->
  safe allowed next Q s (defer (ITree.trigger cleanup) body).
Proof.
  intros Hbody Hclean. unfold defer.
  apply safe_bind with (P := P); [exact Hbody | ].
  intros s' r HP. destruct (Hclean s' r HP) as [Ha HQ].
  apply safe_call; [exact Ha | ].
  intros []. apply safe_ret. exact HQ.
Qed.

(** A loop is safe when each turn keeps the invariant on going round and
    gives the postcondition on leaving. *)
Lemma safe_iter {I R : Type} (Inv : St -> I -> Prop) (Q : St -> R -> Prop)
  (body : I -> itree E (I + R)) :
  (forall s i, Inv s i ->
     safe allowed next (fun s' lr => match lr with
                         | inl i' => Inv s' i'
                         | inr r => Q s' r
                         end) s (body i)) ->
  forall s i, Inv s i -> safe allowed next Q s (ITree.iter body i).
Proof.
  intros Hbody.
  set (P := fun (s' : St) (lr : I + R) =>
              match lr with inl i' => Inv s' i' | inr r => Q s' r end) in *.
  set (K := fun lr : I + R =>
              match lr with
              | inl i' => Tau (ITree.iter body i')
              | inr r => Ret r
              end).
  assert (Hgen : forall s (u : itree E R) (t : itree E (I + R)),
             safe allowed next P s t -> observe u = observe (ITree.bind t K) -> safe allowed next Q s u).
  { pcofix CIH. intros s u t Ht Hu.
    punfold Ht. unfold safe_, safeF in Ht.
    pfold. unfold safe_. rewrite Hu, observe_bind.
    destruct (observe t) as [[i' | r0] | t' | X e h]; cbn.
    - right. apply (CIH s (ITree.iter body i') (body i')).
      + apply Hbody. exact Ht.
      + reflexivity.
    - exact Ht.
    - destruct Ht as [Ht | []]. right. apply (CIH s _ t'); [exact Ht | reflexivity].
    - destruct Ht as [Ha Hh]. split; [exact Ha | ].
      intros x. destruct (Hh x) as [Hx | []]. right.
      apply (CIH _ _ (h x)); [exact Hx | reflexivity]. }
  intros s i Hi. apply (Hgen s _ (body i)); [apply Hbody; exact Hi | reflexivity].
Qed.

(** A safe tree has only accepted traces. *)
Lemma safe_accepts {R : Type} (Q : St -> R -> Prop) (t : itree E R) tr :
  is_trace t tr -> forall s, safe allowed next Q s t -> accepts allowed next Q s tr.
Proof.
  unfold is_trace. intros Htr.
  remember (observe t) as ot eqn:Hot. revert t Hot.
  induction Htr; intros u Hot s Hs; punfold Hs; unfold safe_ in Hs;
    rewrite <- Hot in Hs; cbn in *.
  - exact I.
  - exact Hs.
  - destruct Hs as [Hs | []]. eapply IHHtr; [reflexivity | exact Hs].
  - apply Hs.
  - destruct Hs as [Ha Hk]. split; [exact Ha | ].
    destruct (Hk x) as [Hx | []]. eapply IHHtr; [reflexivity | exact Hx].
Qed.

(** A monitor whose postcondition is empty accepts no returned trace. *)
Lemma accepts_never_returns {R : Type} (tr : @trace E R) :
  forall s, accepts allowed next (fun _ _ => False) s tr -> trace_ret tr = None.
Proof.
  induction tr as [ | r | X e | X e x tr IH]; cbn; intros s H.
  - reflexivity.
  - contradiction.
  - reflexivity.
  - destruct H as [_ H]. eapply IH. exact H.
Qed.

End MonitorFacts.

(** ** Traces of the pieces of a tree *)

Lemma is_trace_ret_inv {E : Type -> Type} {R : Type} (r : R)
  (tr : @trace E R) :
  is_trace (Ret r) tr -> tr = TEnd \/ tr = TRet r.
Proof.
  unfold is_trace. cbn. intros H.
  remember (RetF r) as ot eqn:Hot.
  destruct H; try discriminate; [left; reflexivity | ].
  right. inversion Hot. reflexivity.
Qed.

Lemma is_trace_tau {E : Type -> Type} {R : Type} (t : itree E R) tr :
  is_trace t tr -> is_trace (Tau t) tr.
Proof. unfold is_trace. intros H. cbn. constructor. exact H. Qed.

Lemma is_trace_bind_bind {E : Type -> Type} {A B R : Type} (t : itree E A)
  (k : A -> itree E B) (h : B -> itree E R) tr :
  is_trace (ITree.bind t (fun a => ITree.bind (k a) h)) tr ->
  is_trace (ITree.bind (ITree.bind t k) h) tr.
Proof.
  intros H.
  assert (Heq : ITree.bind (ITree.bind t k) h
                ≈ ITree.bind t (fun a => ITree.bind (k a) h))
    by (rewrite bind_bind; reflexivity).
  apply (eutt_trace_eq _ _ Heq). exact H.
Qed.

(** ** The trust policy *)

Section PolicyFacts.

Variable ConnectionKey : Type.
Variable ParseConnectionKey : string -> result ConnectionKey.
Variable ClientTLSConfig : ConnectionKey -> result Config.
Variable YamuxConfig : Type.
Variable yamuxCfg : YamuxConfig.

(** Without [insecure], any key that is not empty goes through the
    [default] case. *)
Lemma clientTLSConfig_secure (connectionKey : string) :
  is_empty connectionKey = false ->
  clientTLSConfig ConnectionKey ParseConnectionKey ClientTLSConfig
                  connectionKey false
  = verified_config ConnectionKey ParseConnectionKey ClientTLSConfig
                    connectionKey.
Proof.
  intros Hkey. unfold clientTLSConfig, verified_config.
  rewrite Hkey. reflexivity.
Qed.

(** With [insecure] and a key, the last case: the verified configuration
    with the two assignments made to it. *)
Lemma clientTLSConfig_insecure_key (connectionKey : string) :
  is_empty connectionKey = false ->
  clientTLSConfig ConnectionKey ParseConnectionKey ClientTLSConfig
                  connectionKey true
  = match verified_config ConnectionKey ParseConnectionKey ClientTLSConfig
                          connectionKey with
    | Err err => Err err
    | Ok cfg =>
        Ok (set_ServerName EmptyString (set_InsecureSkipVerify true cfg))
    end.
Proof.
  intros Hkey. unfold clientTLSConfig, verified_config.
  rewrite Hkey. cbn.
  destruct (ParseConnectionKey connectionKey) as [key | err]; [ | reflexivity].
  destruct (ClientTLSConfig key); reflexivity.
Qed.

(** C1. [clientTLSConfig] realizes the decision table on every input:
    without [insecure] and without a key it fails; without [insecure] and
    with a key it gives the verified configuration of the key, unchanged;
    with [insecure] and no key it gives a configuration that skips
    verification and presents no certificate; with [insecure] and a key it
    gives a configuration with the certificates of the verified one,
    verification skipped and the server name cleared.  Where the key does
    not parse or the configuration cannot be built, that wrapped error is
    the result. *)
Theorem clientTLSConfig_decision_table (connectionKey : string)
  (insecure : bool) :
  let built := clientTLSConfig ConnectionKey ParseConnectionKey
                               ClientTLSConfig connectionKey insecure in
  let verified := verified_config ConnectionKey ParseConnectionKey
                                  ClientTLSConfig connectionKey in
  match insecure, is_empty connectionKey with
  | false, true => built = Err (errorString "connection key is required")
  | false, false => built = verified
  | true, true =>
      exists cfg, built = Ok cfg
                  /\ InsecureSkipVerify cfg = true
                  /\ Certificates cfg = []
  | true, false =>
      match verified with
      | Err err => built = Err err
      | Ok v =>
          exists cfg, built = Ok cfg
                      /\ Certificates cfg = Certificates v
                      /\ InsecureSkipVerify cfg = true
                      /\ ServerName cfg = EmptyString
      end
  end.
Proof.
  intros built verified. subst built verified.
  destruct insecure; destruct (is_empty connectionKey) eqn:Hkey.
  - unfold clientTLSConfig. rewrite Hkey. cbn.
    eexists. split; [reflexivity | split; reflexivity].
  - rewrite (clientTLSConfig_insecure_key _ Hkey).
    destruct (verified_config _ _ _ connectionKey) as [v | err];
      [ | reflexivity].
    eexists. split; [reflexivity | ]. cbn. repeat split.
  - unfold clientTLSConfig. rewrite Hkey. reflexivity.
  - apply clientTLSConfig_secure. exact Hkey.
Qed.

(** C10. For a key that parses and whose verified configuration is built,
    the configuration of the insecure-with-key case is that verified
    configuration with [InsecureSkipVerify] set and [ServerName] emptied;
    every other field is the verified one's. *)
Theorem insecure_keyed_config_frame (connectionKey : string)
  (key : ConnectionKey) (verified : Config) :
  is_empty connectionKey = false ->
  ParseConnectionKey connectionKey = Ok key ->
  ClientTLSConfig key = Ok verified ->
  exists cfg,
    clientTLSConfig ConnectionKey ParseConnectionKey ClientTLSConfig
                    connectionKey true = Ok cfg
    /\ cfg = set_ServerName EmptyString (set_InsecureSkipVerify true verified)
    /\ InsecureSkipVerify cfg = true
    /\ ServerName cfg = EmptyString
    /\ Certificates cfg = Certificates verified
    /\ RootCAs cfg = RootCAs verified
    /\ NextProtos cfg = NextProtos verified
    /\ MinVersion cfg = MinVersion verified
    /\ MaxVersion cfg = MaxVersion verified.
Proof.
  intros Hkey Hparse Hclient.
  rewrite (clientTLSConfig_insecure_key _ Hkey).
  unfold verified_config. rewrite Hparse, Hclient.
  eexists. split; [reflexivity | ]. cbn. repeat split.
Qed.

(** A tree that is a bare [Ret] makes no call. *)
Lemma ret_returns_at_once {R : Type} (r : R) :
  returns_at_once (Ret r : itree (relayE YamuxConfig) R) r.
Proof. intros tr H. apply is_trace_ret_inv. exact H. Qed.

(** When the configuration cannot be built the relay is the bare return of
    that error, wrapped with the build stage. *)
Lemma relay_build_error (connectBackAddr connectionKey : string)
  (timeout reconnectAfter : Duration) (insecure : bool) (err : error) :
  clientTLSConfig ConnectionKey ParseConnectionKey ClientTLSConfig
                  connectionKey insecure = Err err ->
  runRemoteProxyRelay ConnectionKey ParseConnectionKey ClientTLSConfig
                      YamuxConfig yamuxCfg connectBackAddr connectionKey
                      timeout reconnectAfter insecure
  = Ret (Some (Errorf_w "build TLS config" err)).
Proof. intros H. unfold runRemoteProxyRelay. rewrite H. reflexivity. Qed.

(** C2. Without [insecure] and with an empty key the relay returns the
    "connection key is required" error, for every timeout and
    reconnect-after, and it does so without a single call: no dial is
    attempted. *)
Theorem missing_key_fails_before_dial (connectBackAddr : string)
  (timeout reconnectAfter : Duration) :
  let relay := runRemoteProxyRelay ConnectionKey ParseConnectionKey
                 ClientTLSConfig YamuxConfig yamuxCfg connectBackAddr
                 EmptyString timeout reconnectAfter false in
  let required := errorString "connection key is required" in
  relay = Ret (Some (Errorf_w "build TLS config" required))
  /\ returns_at_once relay (Some (Errorf_w "build TLS config" required))
  /\ Unwrap (Errorf_w "build TLS config" required) = Some required
  /\ Error (Errorf_w "build TLS config" required)
     = "build TLS config: connection key is required".
Proof.
  cbn zeta. split; [reflexivity | split; [ | split; reflexivity]].
  apply ret_returns_at_once.
Qed.

(** A key that is looked at and does not parse is an error of the
    configuration stage. *)
Lemma parse_error_is_build_error (connectionKey : string) (insecure : bool)
  (parse_err : error) :
  is_empty connectionKey = false ->
  ParseConnectionKey connectionKey = Err parse_err ->
  clientTLSConfig ConnectionKey ParseConnectionKey ClientTLSConfig
                  connectionKey insecure
  = Err (Errorf_w "parse connection key" parse_err).
Proof.
  intros Hkey Hparse. unfold clientTLSConfig. rewrite Hkey, Hparse.
  destruct insecure; reflexivity.
Qed.

(** C5. An error of the configuration stage is fatal whatever
    reconnect-after is: the relay returns it wrapped with "build TLS
    config" without making any call, so once, before the loop and before
    any dial; in particular a key that does not parse makes the relay
    return the parse error wrapped with "parse connection key" and then
    with "build TLS config". *)
Theorem build_errors_are_fatal (connectBackAddr connectionKey : string)
  (timeout reconnectAfter : Duration) (insecure : bool) :
  let relay := runRemoteProxyRelay ConnectionKey ParseConnectionKey
                 ClientTLSConfig YamuxConfig yamuxCfg connectBackAddr
                 connectionKey timeout reconnectAfter insecure in
  (forall err,
      clientTLSConfig ConnectionKey ParseConnectionKey ClientTLSConfig
                      connectionKey insecure = Err err ->
      relay = Ret (Some (Errorf_w "build TLS config" err))
      /\ returns_at_once relay (Some (Errorf_w "build TLS config" err)))
  /\ (forall parse_err,
        is_empty connectionKey = false ->
        ParseConnectionKey connectionKey = Err parse_err ->
        let err := Errorf_w "parse connection key" parse_err in
        relay = Ret (Some (Errorf_w "build TLS config" err))
        /\ returns_at_once relay (Some (Errorf_w "build TLS config" err))).
Proof.
  cbn zeta.
  assert (Hfatal : forall err,
    clientTLSConfig ConnectionKey ParseConnectionKey ClientTLSConfig
                    connectionKey insecure = Err err ->
    runRemoteProxyRelay ConnectionKey ParseConnectionKey ClientTLSConfig
                        YamuxConfig yamuxCfg connectBackAddr connectionKey
                        timeout reconnectAfter insecure
    = Ret (Some (Errorf_w "build TLS config" err))
    /\ returns_at_once
         (runRemoteProxyRelay ConnectionKey ParseConnectionKey ClientTLSConfig
                              YamuxConfig yamuxCfg connectBackAddr
                              connectionKey timeout reconnectAfter insecure)
         (Some (Errorf_w "build TLS config" err))).
  { intros err Hbuild.
    rewrite (relay_build_error _ _ _ _ _ _ Hbuild).
    split; [reflexivity | apply ret_returns_at_once]. }
  split; [exact Hfatal | ].
  intros parse_err Hkey Hparse. apply Hfatal.
  apply parse_error_is_build_error; assumption.
Qed.

End PolicyFacts.

(** ** One attempt *)

Section AttemptFacts.

Variable YamuxConfig : Type.
Variable yamuxCfg : YamuxConfig.
Variable tlsConfig : Config.
Variable connectBackAddr : string.
Variable timeout : Duration.

(** The attempt followed by [k] runs the calls of [attempt_trace] and then
    goes on as [k] does on the attempt's result. *)
Lemma attempt_trace_then {R : Type} (o : outcome)
  (k : option error -> itree (relayE YamuxConfig) R)
  (rest : @trace (relayE YamuxConfig) R) :
  is_trace (k (attempt_result o)) rest ->
  is_trace
    (ITree.bind (connectBackAndRelay YamuxConfig yamuxCfg tlsConfig
                                     connectBackAddr timeout) k)
    (attempt_trace YamuxConfig yamuxCfg tlsConfig connectBackAddr timeout
                   o rest).
Proof.
  unfold is_trace. intros H.
  destruct o; cbn; repeat (constructor; cbn); exact H.
Qed.

(** The attempt alone ends with its result. *)
Lemma attempt_trace_returns (o : outcome) :
  is_trace
    (connectBackAndRelay YamuxConfig yamuxCfg tlsConfig connectBackAddr
                         timeout)
    (attempt_trace YamuxConfig yamuxCfg tlsConfig connectBackAddr timeout o
                   (TRet (attempt_result o))).
Proof.
  unfold is_trace.
  destruct o; cbn; repeat (constructor; cbn).
Qed.

(** The dial phase: one dial with the configured arguments; refused, the
    attempt returns the wrapped error at once; accepted, the connected
    line is printed and no other dial follows. *)
Lemma attempt_dial_phase :
  safe (dial_allowed YamuxConfig tlsConfig connectBackAddr timeout)
       (dial_next YamuxConfig) dial_returned BeforeDial
       (connectBackAndRelay YamuxConfig yamuxCfg tlsConfig connectBackAddr
                            timeout).
Proof.
  unfold connectBackAndRelay.
  apply safe_call; [cbn; repeat split | intros [conn | err]; cbn].
  2: { apply safe_ret. reflexivity. }
  apply safe_call; [cbn; repeat split | intros []; cbn].
  apply safe_defer with (P := fun s _ => s = Relaying);
    [ | intros s' r ->; cbn; split; exact I].
  apply safe_call; [exact I | intros [session | err]; cbn].
  2: { apply safe_ret. reflexivity. }
  apply safe_defer with (P := fun s _ => s = Relaying);
    [ | intros s' r ->; cbn; split; [exact I | reflexivity]].
  apply safe_call; [exact I | intros [server | err]; cbn].
  2: { apply safe_ret. reflexivity. }
  apply safe_call; [exact I | intros [err | ]; cbn];
    apply safe_ret; reflexivity.
Qed.

(** What is open: the attempt starts and ends with everything closed, and
    closes the session before the connection. *)
Lemma attempt_releases :
  safe (resources_allowed YamuxConfig) (resources_next YamuxConfig)
       (fun s (_ : option error) => s = released) released
       (connectBackAndRelay YamuxConfig yamuxCfg tlsConfig connectBackAddr
                            timeout).
Proof.
  unfold connectBackAndRelay.
  apply safe_call; [cbn; split; reflexivity | intros [conn | err]; cbn].
  2: { apply safe_ret. reflexivity. }
  apply safe_call; [exact I | intros []; cbn].
  apply safe_defer with (P := fun s _ => s = mkResources (Some conn) None);
    [ | intros s' r ->; cbn; repeat split].
  apply safe_call; [cbn; split; reflexivity | intros [session | err]; cbn].
  2: { apply safe_ret. reflexivity. }
  apply safe_defer
    with (P := fun s _ => s = mkResources (Some conn) (Some session));
    [ | intros s' r ->; cbn; repeat split].
  apply safe_call; [exact I | intros [server | err]; cbn].
  2: { apply safe_ret. reflexivity. }
  apply safe_call; [reflexivity | intros [err | ]; cbn];
    apply safe_ret; reflexivity.
Qed.

(** The attempt never sleeps, so any delay monitor lets it through. *)
Lemma attempt_never_sleeps (reconnectAfter : Duration) :
  safe (delay_allowed YamuxConfig reconnectAfter) (delay_next YamuxConfig)
       (fun _ (_ : option error) => True) tt
       (connectBackAndRelay YamuxConfig yamuxCfg tlsConfig connectBackAddr
                            timeout).
Proof.
  unfold connectBackAndRelay.
  apply safe_call; [exact I | intros [conn | err]; cbn].
  2: { apply safe_ret. exact I. }
  apply safe_call; [exact I | intros []; cbn].
  apply safe_defer with (P := fun _ _ => True);
    [ | intros s' r _; cbn; split; exact I].
  apply safe_call; [exact I | intros [session | err]; cbn].
  2: { apply safe_ret. exact I. }
  apply safe_defer with (P := fun _ _ => True);
    [ | intros s' r _; cbn; split; exact I].
  apply safe_call; [exact I | intros [server | err]; cbn].
  2: { apply safe_ret. exact I. }
  apply safe_call; [exact I | intros [err | ]; cbn];
    apply safe_ret; exact I.
Qed.

(** C6. One call of the dial phase makes one TLS dial, to the target
    address, with the configured timeout and TLS configuration, and never
    a second one; when the dial fails the attempt returns that error
    wrapped with "dial" and calls nothing else; when it succeeds the next
    call prints the remote address of the connection, before the
    multiplexer or the server is touched. *)
Theorem attempt_dials_once :
  let attempt := connectBackAndRelay YamuxConfig yamuxCfg tlsConfig
                                     connectBackAddr timeout in
  let dial := dial_call YamuxConfig tlsConfig connectBackAddr timeout in
  is_trace attempt (TEventEnd dial)
  /\ (forall tr,
        is_trace attempt tr ->
        accepts (dial_allowed YamuxConfig tlsConfig connectBackAddr timeout)
                (dial_next YamuxConfig) dial_returned BeforeDial tr)
  /\ (forall err,
        is_trace attempt
          (TEventResponse dial (Err err) (TRet (Some (Errorf_w "dial" err)))))
  /\ (forall conn,
        is_trace attempt
          (TEventResponse dial (Ok conn)
             (TEventEnd (connected_line YamuxConfig conn)))).
Proof.
  cbn zeta. split; [ | split; [ | split]].
  - unfold is_trace. cbn. constructor.
  - intros tr Htr. eapply safe_accepts; [exact Htr | apply attempt_dial_phase].
  - intros err. unfold is_trace. cbn. repeat (constructor; cbn).
  - intros conn. unfold is_trace. cbn. repeat (constructor; cbn).
Qed.

(** C7. However the attempt ends after a successful dial (the multiplexer
    fails to start, the SOCKS5 server cannot be made, serving fails,
    serving ends cleanly), what was acquired is closed before it returns:
    the session, when there is one, and then the connection, never the
    other way round. *)
Theorem attempt_releases_resources :
  let attempt := connectBackAndRelay YamuxConfig yamuxCfg tlsConfig
                                     connectBackAddr timeout in
  (forall tr,
      is_trace attempt tr ->
      accepts (resources_allowed YamuxConfig) (resources_next YamuxConfig)
              (fun s (_ : option error) => s = released) released tr)
  /\ (forall o,
        is_trace attempt
          (attempt_trace YamuxConfig yamuxCfg tlsConfig connectBackAddr
                         timeout o (TRet (attempt_result o)))).
Proof.
  cbn zeta. split.
  - intros tr Htr. eapply safe_accepts; [exact Htr | apply attempt_releases].
  - apply attempt_trace_returns.
Qed.

End AttemptFacts.

(** ** The loop *)

Section LoopFacts.

Variable YamuxConfig : Type.
Variable yamuxCfg : YamuxConfig.
Variable tlsConfig : Config.
Variable connectBackAddr : string.
Variable timeout : Duration.

(** A loop does what its first turn does, and then goes round or leaves. *)
Lemma is_trace_iter {E : Type -> Type} {I R : Type}
  (body : I -> itree E (I + R)) (i : I) tr :
  is_trace (ITree.bind (body i)
              (fun lr => match lr with
                         | inl l => Tau (ITree.iter body l)
                         | inr r => Ret r
                         end)) tr ->
  is_trace (ITree.iter body i) tr.
Proof. intros H. exact H. Qed.

(** With reconnect enabled, one turn makes the calls of its round and
    then goes round. *)
Lemma iteration_round {R : Type} (reconnectAfter : Duration) (o : outcome)
  (k : unit + option error -> itree (relayE YamuxConfig) R)
  (rest : @trace (relayE YamuxConfig) R) :
  reconnectAfter <> 0%Z ->
  is_trace (k (inl tt)) rest ->
  is_trace
    (ITree.bind (relay_iteration YamuxConfig yamuxCfg tlsConfig
                                 connectBackAddr timeout reconnectAfter tt) k)
    (round_trace YamuxConfig yamuxCfg tlsConfig connectBackAddr timeout
                 reconnectAfter o rest).
Proof.
  intros Hd Hrest. apply Z.eqb_neq in Hd.
  unfold relay_iteration, round_trace.
  apply is_trace_bind_bind. apply attempt_trace_then.
  cbn zeta. rewrite Hd.
  destruct (attempt_result o) as [err | ]; unfold is_trace; cbn;
    repeat (apply TraceVisContinue; cbn); exact Hrest.
Qed.

(** With reconnect enabled, a turn of the loop puts its round in front of
    whatever the loop does next. *)
Lemma loop_round (reconnectAfter : Duration) (o : outcome)
  (rest : @trace (relayE YamuxConfig) (option error)) :
  reconnectAfter <> 0%Z ->
  is_trace (relay_loop YamuxConfig yamuxCfg tlsConfig connectBackAddr timeout
                       reconnectAfter) rest ->
  is_trace (relay_loop YamuxConfig yamuxCfg tlsConfig connectBackAddr timeout
                       reconnectAfter)
           (round_trace YamuxConfig yamuxCfg tlsConfig connectBackAddr timeout
                        reconnectAfter o rest).
Proof.
  intros Hd Hrest. unfold relay_loop.
  apply is_trace_iter. apply iteration_round; [exact Hd | ].
  apply is_trace_tau. exact Hrest.
Qed.

(** Whatever reconnect-after is, the loop starts by dialing. *)
Lemma loop_dials_first (reconnectAfter : Duration) :
  is_trace (relay_loop YamuxConfig yamuxCfg tlsConfig connectBackAddr timeout
                       reconnectAfter)
           (TEventEnd (dial_call YamuxConfig tlsConfig connectBackAddr
                                 timeout)).
Proof. unfold is_trace. cbn. constructor. Qed.

(** Any number of rounds, each ending as the outside decides, and the
    loop is dialing again. *)
Lemma loop_rounds (reconnectAfter : Duration) (os : list outcome) :
  reconnectAfter <> 0%Z ->
  is_trace (relay_loop YamuxConfig yamuxCfg tlsConfig connectBackAddr timeout
                       reconnectAfter)
           (rounds_trace YamuxConfig yamuxCfg tlsConfig connectBackAddr
              timeout reconnectAfter os
              (TEventEnd (dial_call YamuxConfig tlsConfig connectBackAddr
                                    timeout))).
Proof.
  intros Hd. induction os as [ | o os IH]; cbn.
  - apply loop_dials_first.
  - apply loop_round; [exact Hd | exact IH].
Qed.

(** With reconnect enabled no turn of the loop leaves it, and every sleep
    is of the configured delay. *)
Lemma loop_never_leaves (reconnectAfter : Duration) :
  reconnectAfter <> 0%Z ->
  safe (delay_allowed YamuxConfig reconnectAfter) (delay_next YamuxConfig)
       (fun _ (_ : option error) => False) tt
       (relay_loop YamuxConfig yamuxCfg tlsConfig connectBackAddr timeout
                   reconnectAfter).
Proof.
  intros Hd. apply Z.eqb_neq in Hd. unfold relay_loop.
  apply safe_iter with (Inv := fun _ _ => True); [ | exact I].
  intros [] [] _. unfold relay_iteration.
  eapply safe_bind; [apply attempt_never_sleeps | ].
  intros [] r _. rewrite Hd.
  destruct r as [err | ].
  - eapply safe_bind with (P := fun _ returned => returned = None).
    + apply safe_call; [exact I | intros []; apply safe_ret; reflexivity].
    + intros [] returned ->.
      apply safe_call; [exact I | intros []; cbn].
      apply safe_call; [reflexivity | intros []; cbn].
      apply safe_ret. exact I.
  - eapply safe_bind with (P := fun _ returned => returned = None).
    + apply safe_ret. reflexivity.
    + intros [] returned ->.
      apply safe_call; [exact I | intros []; cbn].
      apply safe_call; [reflexivity | intros []; cbn].
      apply safe_ret. exact I.
Qed.

(** Whatever reconnect-after is, the loop dials only with everything
    closed, and has everything closed when it sleeps or leaves. *)
Lemma loop_one_session (reconnectAfter : Duration) :
  safe (resources_allowed YamuxConfig) (resources_next YamuxConfig)
       (fun s (_ : option error) => s = released) released
       (relay_loop YamuxConfig yamuxCfg tlsConfig connectBackAddr timeout
                   reconnectAfter).
Proof.
  unfold relay_loop.
  apply safe_iter with (Inv := fun s _ => s = released); [ | reflexivity].
  intros s [] ->. unfold relay_iteration.
  eapply safe_bind; [apply attempt_releases | ].
  cbn beta. intros s r ->.
  eapply safe_bind with (P := fun s _ => s = released).
  - destruct r as [err | ]; [ | apply safe_ret; reflexivity].
    destruct (reconnectAfter =? 0)%Z; [apply safe_ret; reflexivity | ].
    apply safe_call; [exact I | intros []; apply safe_ret; reflexivity].
  - intros s [ret | ] ->; [apply safe_ret; reflexivity | ].
    destruct (reconnectAfter =? 0)%Z; [apply safe_ret; reflexivity | ].
    apply safe_call; [exact I | intros []; cbn].
    apply safe_call; [split; reflexivity | intros []; cbn].
    apply safe_ret. reflexivity.
Qed.

(** With reconnect disabled the loop is one attempt. *)
Lemma loop_no_reconnect :
  relay_loop YamuxConfig yamuxCfg tlsConfig connectBackAddr timeout 0%Z
  ≈ connectBackAndRelay YamuxConfig yamuxCfg tlsConfig connectBackAddr
                        timeout.
Proof.
  unfold relay_loop. rewrite unfold_iter. unfold relay_iteration.
  rewrite bind_bind.
  rewrite <- (bind_ret_r (connectBackAndRelay _ _ _ _ _)) at 2.
  eapply eutt_clo_bind; [reflexivity | ].
  intros r ? <-. cbn.
  destruct r as [err | ]; rewrite !bind_ret_l; reflexivity.
Qed.

End LoopFacts.

(** ** The relay *)

Section RelayFacts.

Variable ConnectionKey : Type.
Variable ParseConnectionKey : string -> result ConnectionKey.
Variable ClientTLSConfig : ConnectionKey -> result Config.
Variable YamuxConfig : Type.
Variable yamuxCfg : YamuxConfig.

(** Once the configuration is built the relay is the loop over it. *)
Lemma relay_built (connectBackAddr connectionKey : string)
  (timeout reconnectAfter : Duration) (insecure : bool) (tlsConfig : Config) :
  clientTLSConfig ConnectionKey ParseConnectionKey ClientTLSConfig
                  connectionKey insecure = Ok tlsConfig ->
  runRemoteProxyRelay ConnectionKey ParseConnectionKey ClientTLSConfig
                      YamuxConfig yamuxCfg connectBackAddr connectionKey
                      timeout reconnectAfter insecure
  = relay_loop YamuxConfig yamuxCfg tlsConfig connectBackAddr timeout
               reconnectAfter.
Proof. intros H. unfold runRemoteProxyRelay. rewrite H. reflexivity. Qed.

(** C3. With reconnect-after zero the relay is a single attempt: it
    behaves as [connectBackAndRelay] called once and returns what that call
    returns.  So it dials once and never again; a failed dial, a failed
    multiplexer or server start, or a failed serve comes back as the
    wrapped error; a clean end of the session comes back as nil. *)
Theorem no_reconnect_single_attempt (connectBackAddr connectionKey : string)
  (timeout : Duration) (insecure : bool) (tlsConfig : Config) :
  clientTLSConfig ConnectionKey ParseConnectionKey ClientTLSConfig
                  connectionKey insecure = Ok tlsConfig ->
  let relay := runRemoteProxyRelay ConnectionKey ParseConnectionKey
                 ClientTLSConfig YamuxConfig yamuxCfg connectBackAddr
                 connectionKey timeout 0%Z insecure in
  relay ≈ connectBackAndRelay YamuxConfig yamuxCfg tlsConfig connectBackAddr
                              timeout
  /\ (forall tr,
        is_trace relay tr ->
        accepts (dial_allowed YamuxConfig tlsConfig connectBackAddr timeout)
                (dial_next YamuxConfig) dial_returned BeforeDial tr)
  /\ (forall o,
        is_trace relay
          (attempt_trace YamuxConfig yamuxCfg tlsConfig connectBackAddr
                         timeout o (TRet (attempt_result o)))).
Proof.
  intros Hbuilt. cbn zeta. rewrite (relay_built _ _ _ _ _ _ Hbuilt).
  pose proof (loop_no_reconnect YamuxConfig yamuxCfg tlsConfig
                connectBackAddr timeout) as Hone.
  destruct (eutt_trace_eq _ _ Hone) as [Hto Hfrom].
  split; [exact Hone | split].
  - intros tr Htr. eapply safe_accepts; [apply Hto; exact Htr | ].
    apply attempt_dial_phase.
  - intros o. apply Hfrom. apply attempt_trace_returns.
Qed.

(** C4. With reconnect-after above zero, after any number of attempts
    that failed (at the dial, at the multiplexer or server start, or while
    serving) the relay has printed each error, has slept the configured
    delay after each, and is dialing again; in every execution each sleep
    is of exactly that delay and the relay does not return. *)
Theorem reconnect_retries_forever (connectBackAddr connectionKey : string)
  (timeout reconnectAfter : Duration) (insecure : bool) (tlsConfig : Config) :
  clientTLSConfig ConnectionKey ParseConnectionKey ClientTLSConfig
                  connectionKey insecure = Ok tlsConfig ->
  (0 < reconnectAfter)%Z ->
  let relay := runRemoteProxyRelay ConnectionKey ParseConnectionKey
                 ClientTLSConfig YamuxConfig yamuxCfg connectBackAddr
                 connectionKey timeout reconnectAfter insecure in
  (forall os,
      Forall failed os ->
      is_trace relay
        (rounds_trace YamuxConfig yamuxCfg tlsConfig connectBackAddr timeout
           reconnectAfter os
           (TEventEnd (dial_call YamuxConfig tlsConfig connectBackAddr
                                 timeout))))
  /\ (forall tr,
        is_trace relay tr ->
        accepts (delay_allowed YamuxConfig reconnectAfter)
                (delay_next YamuxConfig)
                (fun _ (_ : option error) => False) tt tr)
  /\ never_returns relay.
Proof.
  intros Hbuilt Hpos. cbn zeta. rewrite (relay_built _ _ _ _ _ _ Hbuilt).
  assert (Hd : reconnectAfter <> 0%Z) by lia.
  assert (Hsafe : forall tr,
    is_trace (relay_loop YamuxConfig yamuxCfg tlsConfig connectBackAddr
                         timeout reconnectAfter) tr ->
    accepts (delay_allowed YamuxConfig reconnectAfter)
            (delay_next YamuxConfig)
            (fun _ (_ : option error) => False) tt tr).
  { intros tr Htr. eapply safe_accepts; [exact Htr | ].
    apply loop_never_leaves. exact Hd. }
  split; [ | split].
  - intros os _. apply loop_rounds. exact Hd.
  - exact Hsafe.
  - intros tr Htr. eapply accepts_never_returns. apply Hsafe. exact Htr.
Qed.

(** C8. In every execution of the relay, whatever the key, the flags and
    reconnect-after: a dial is made only when no connection and no session
    is open, the multiplexer is started only on the open connection with
    no session open, the server is served only on the open session, and
    the relay sleeps and returns with everything closed.  So two sessions
    are never open together and no dial overlaps a session. *)
Theorem one_session_at_a_time (connectBackAddr connectionKey : string)
  (timeout reconnectAfter : Duration) (insecure : bool) :
  forall tr,
    is_trace (runRemoteProxyRelay ConnectionKey ParseConnectionKey
                ClientTLSConfig YamuxConfig yamuxCfg connectBackAddr
                connectionKey timeout reconnectAfter insecure) tr ->
    accepts (resources_allowed YamuxConfig) (resources_next YamuxConfig)
            (fun s (_ : option error) => s = released) released tr.
Proof.
  intros tr Htr. eapply safe_accepts; [exact Htr | ].
  unfold runRemoteProxyRelay.
  destruct (clientTLSConfig _ _ _ connectionKey insecure) as [tlsConfig | err].
  - apply loop_one_session.
  - apply safe_ret. reflexivity.
Qed.

(** C9, as the code has it. With reconnect-after above zero the relay
    never returns nil; once the TLS configuration is built it never
    returns at all, and a turn that ended cleanly is followed by the same
    reconnect line, sleep and dial as a turn that failed. *)
Theorem reconnect_never_done (connectBackAddr connectionKey : string)
  (timeout reconnectAfter : Duration) (insecure : bool) :
  (0 < reconnectAfter)%Z ->
  let relay := runRemoteProxyRelay ConnectionKey ParseConnectionKey
                 ClientTLSConfig YamuxConfig yamuxCfg connectBackAddr
                 connectionKey timeout reconnectAfter insecure in
  (forall tr, is_trace relay tr -> trace_ret tr <> Some None)
  /\ (forall tlsConfig,
        clientTLSConfig ConnectionKey ParseConnectionKey ClientTLSConfig
                        connectionKey insecure = Ok tlsConfig ->
        never_returns relay
        /\ (forall os,
              is_trace relay
                (rounds_trace YamuxConfig yamuxCfg tlsConfig connectBackAddr
                   timeout reconnectAfter os
                   (TEventEnd (dial_call YamuxConfig tlsConfig
                                         connectBackAddr timeout))))).
Proof.
  intros Hpos. cbn zeta.
  assert (Hd : reconnectAfter <> 0%Z) by lia.
  assert (Hnever : forall tlsConfig,
    never_returns (relay_loop YamuxConfig yamuxCfg tlsConfig connectBackAddr
                              timeout reconnectAfter)).
  { intros tlsConfig tr Htr.
    eapply accepts_never_returns. eapply safe_accepts; [exact Htr | ].
    apply loop_never_leaves. exact Hd. }
  split.
  - intros tr Htr. unfold runRemoteProxyRelay in Htr.
    destruct (clientTLSConfig _ _ _ connectionKey insecure)
      as [tlsConfig | err].
    + rewrite (Hnever tlsConfig tr Htr). discriminate.
    + destruct (is_trace_ret_inv _ _ Htr) as [-> | ->]; cbn; discriminate.
  - intros tlsConfig Hbuilt. rewrite (relay_built _ _ _ _ _ _ Hbuilt).
    split; [apply Hnever | ].
    intros os. apply loop_rounds. exact Hd.
Qed.

End RelayFacts.

(** ** The theorems at work in the sample environment *)

(** The four rows of the table, and a key that does not parse. *)
Example sample_decision_table :
  Sample.config EmptyString false
  = Err (errorString "connection key is required")
  /\ Sample.config "k3y" false = Ok Sample.verified
  /\ Sample.config EmptyString true = Ok Sample.insecure_config
  /\ Sample.config "k3y" true
     = Ok (mkConfig [mkCertificate ["k3y"] "k3y"] (Some ["k3y"]) []
                    EmptyString true 772 0)
  /\ Sample.config "malformed" false
     = Err (Errorf_w "parse connection key"
                     (errorString "invalid connection key")).
Proof. repeat split. Qed.

(** Reconnect disabled, a session that is served and ends cleanly: the
    session and the connection are closed and the relay returns nil. *)
Example sample_clean_session :
  is_trace (Sample.relay EmptyString 0%Z true)
    (attempt_trace unit tt Sample.insecure_config "listener:4080"
       Sample.five_seconds (ServeClean Sample.peer 1 2) (TRet None)).
Proof.
  unfold is_trace. cbn. repeat (apply TraceVisContinue; cbn).
  apply TraceRet.
Qed.

(** The frame of C10 on the key "k3y". *)
Lemma insecure_keyed_config_frame_witness :
  is_empty "k3y" = false
  /\ Sample.parse "k3y" = Ok "k3y"
  /\ Sample.client "k3y" = Ok Sample.verified
  /\ exists cfg,
       Sample.config "k3y" true = Ok cfg
       /\ cfg = set_ServerName EmptyString
                  (set_InsecureSkipVerify true Sample.verified)
       /\ InsecureSkipVerify cfg = true
       /\ ServerName cfg = EmptyString
       /\ Certificates cfg = Certificates Sample.verified
       /\ RootCAs cfg = RootCAs Sample.verified
       /\ NextProtos cfg = NextProtos Sample.verified
       /\ MinVersion cfg = MinVersion Sample.verified
       /\ MaxVersion cfg = MaxVersion Sample.verified.
Proof.
  split; [reflexivity | split; [reflexivity | split; [reflexivity | ]]].
  apply (insecure_keyed_config_frame string Sample.parse Sample.client
           "k3y" "k3y" Sample.verified); reflexivity.
Defined.

(** C5 on a key that does not parse, with reconnect enabled. *)
Lemma build_errors_are_fatal_witness :
  let err := Errorf_w "parse connection key"
               (errorString "invalid connection key") in
  Sample.config "malformed" true = Err err
  /\ is_empty "malformed" = false
  /\ Sample.parse "malformed" = Err (errorString "invalid connection key")
  /\ Sample.relay "malformed" Sample.one_second true
     = Ret (Some (Errorf_w "build TLS config" err))
  /\ returns_at_once (Sample.relay "malformed" Sample.one_second true)
       (Some (Errorf_w "build TLS config" err)).
Proof.
  cbn zeta.
  split; [reflexivity | split; [reflexivity | split; [reflexivity | ]]].
  destruct (build_errors_are_fatal string Sample.parse Sample.client unit tt
              "listener:4080" "malformed" Sample.five_seconds
              Sample.one_second true) as [_ Hparse].
  apply (Hparse (errorString "invalid connection key")); reflexivity.
Defined.

(** C6 on a dial that succeeds and a multiplexer that does not start. *)
Lemma attempt_dials_once_witness :
  let tr := attempt_trace unit tt Sample.insecure_config "listener:4080"
              Sample.five_seconds (MuxFailed Sample.peer Sample.reset)
              (TRet (Some (Errorf_w "initialize multiplexer" Sample.reset))) in
  is_trace Sample.attempt tr
  /\ accepts (dial_allowed unit Sample.insecure_config "listener:4080"
                           Sample.five_seconds)
             (dial_next unit) dial_returned BeforeDial tr.
Proof.
  cbn zeta.
  assert (Htr : is_trace Sample.attempt
                  (attempt_trace unit tt Sample.insecure_config
                     "listener:4080" Sample.five_seconds
                     (MuxFailed Sample.peer Sample.reset)
                     (TRet (Some (Errorf_w "initialize multiplexer"
                                           Sample.reset)))))
    by (unfold is_trace; cbn; repeat (constructor; cbn)).
  split; [exact Htr | ].
  destruct (attempt_dials_once unit tt Sample.insecure_config "listener:4080"
              Sample.five_seconds) as [_ [Hall _]].
  apply Hall. exact Htr.
Defined.

(** C7 on a session whose serve fails. *)
Lemma attempt_releases_resources_witness :
  let tr := attempt_trace unit tt Sample.insecure_config "listener:4080"
              Sample.five_seconds (ServeFailed Sample.peer 1 2 Sample.reset)
              (TRet (Some (Errorf_w "socks5 server" Sample.reset))) in
  is_trace Sample.attempt tr
  /\ accepts (resources_allowed unit) (resources_next unit)
             (fun s (_ : option error) => s = released) released tr.
Proof.
  cbn zeta.
  assert (Htr : is_trace Sample.attempt
                  (attempt_trace unit tt Sample.insecure_config
                     "listener:4080" Sample.five_seconds
                     (ServeFailed Sample.peer 1 2 Sample.reset)
                     (TRet (Some (Errorf_w "socks5 server" Sample.reset)))))
    by (unfold is_trace; cbn; repeat (constructor; cbn)).
  split; [exact Htr | ].
  destruct (attempt_releases_resources unit tt Sample.insecure_config
              "listener:4080" Sample.five_seconds) as [Hall _].
  apply Hall. exact Htr.
Defined.

(** C3 on a refused dial. *)
Lemma no_reconnect_single_attempt_witness :
  Sample.config EmptyString true = Ok Sample.insecure_config
  /\ Sample.relay EmptyString 0%Z true ≈ Sample.attempt
  /\ is_trace (Sample.relay EmptyString 0%Z true)
       (TEventResponse
          (dial_call unit Sample.insecure_config "listener:4080"
                     Sample.five_seconds)
          (Err Sample.refused)
          (TRet (Some (Errorf_w "dial" Sample.refused)))).
Proof.
  split; [reflexivity | ].
  destruct (no_reconnect_single_attempt string Sample.parse Sample.client
              unit tt "listener:4080" EmptyString Sample.five_seconds true
              Sample.insecure_config eq_refl) as [Hone [_ Hends]].
  split; [exact Hone | ].
  exact (Hends (DialFailed Sample.refused)).
Defined.

(** C4 on a refused dial followed by a serve that fails. *)
Lemma reconnect_retries_forever_witness :
  let os := [DialFailed Sample.refused;
             ServeFailed Sample.peer 1 2 Sample.reset] in
  Sample.config EmptyString true = Ok Sample.insecure_config
  /\ (0 < Sample.one_second)%Z
  /\ Forall failed os
  /\ is_trace (Sample.relay EmptyString Sample.one_second true)
       (rounds_trace unit tt Sample.insecure_config "listener:4080"
          Sample.five_seconds Sample.one_second os
          (TEventEnd (dial_call unit Sample.insecure_config "listener:4080"
                                Sample.five_seconds)))
  /\ never_returns (Sample.relay EmptyString Sample.one_second true).
Proof.
  cbn zeta.
  assert (Hfailed : Forall failed [DialFailed Sample.refused;
                                   ServeFailed Sample.peer 1 2 Sample.reset])
    by (repeat constructor; discriminate).
  split; [reflexivity | split; [reflexivity | split; [exact Hfailed | ]]].
  destruct (reconnect_retries_forever string Sample.parse Sample.client
              unit tt "listener:4080" EmptyString Sample.five_seconds
              Sample.one_second true Sample.insecure_config eq_refl eq_refl)
    as [Hrounds [_ Hnever]].
  split; [apply Hrounds; exact Hfailed | exact Hnever].
Defined.

(** C8 on a round that fails while serving, up to the next dial. *)
Lemma one_session_at_a_time_witness :
  let tr := round_trace unit tt Sample.insecure_config "listener:4080"
              Sample.five_seconds Sample.one_second
              (ServeFailed Sample.peer 1 2 Sample.reset)
              (TEventEnd (dial_call unit Sample.insecure_config
                                    "listener:4080" Sample.five_seconds)) in
  is_trace (Sample.relay EmptyString Sample.one_second true) tr
  /\ accepts (resources_allowed unit) (resources_next unit)
             (fun s (_ : option error) => s = released) released tr.
Proof.
  cbn zeta.
  assert (Htr : is_trace (Sample.relay EmptyString Sample.one_second true)
                  (round_trace unit tt Sample.insecure_config "listener:4080"
                     Sample.five_seconds Sample.one_second
                     (ServeFailed Sample.peer 1 2 Sample.reset)
                     (TEventEnd (dial_call unit Sample.insecure_config
                                   "listener:4080" Sample.five_seconds)))).
  { unfold is_trace. cbn. repeat (apply TraceVisContinue; cbn).
    apply TraceTau. cbn. apply TraceVisEnd. }
  split; [exact Htr | ].
  apply (one_session_at_a_time string Sample.parse Sample.client unit tt
           "listener:4080" EmptyString Sample.five_seconds Sample.one_second
           true).
  exact Htr.
Defined.

(** C9 as stated fails: with reconnect-after one second, no [insecure] and
    an empty key, the relay returns. *)
Lemma reconnect_relay_returns_build_error :
  (0 < Sample.one_second)%Z
  /\ ~ never_returns (Sample.relay EmptyString Sample.one_second false).
Proof.
  split; [reflexivity | ].
  intros Hnever.
  specialize (Hnever
    (TRet (Some (Errorf_w "build TLS config"
                          (errorString "connection key is required"))))).
  assert (Htr : is_trace (Sample.relay EmptyString Sample.one_second false)
                  (TRet (Some (Errorf_w "build TLS config"
                          (errorString "connection key is required")))))
    by (unfold is_trace; cbn; constructor).
  apply Hnever in Htr. discriminate Htr.
Qed.

(** C9 as the code has it, in insecure mode without a key. *)
Lemma reconnect_never_done_witness :
  (0 < Sample.one_second)%Z
  /\ Sample.config EmptyString true = Ok Sample.insecure_config
  /\ (forall tr,
        is_trace (Sample.relay EmptyString Sample.one_second true) tr ->
        trace_ret tr <> Some None)
  /\ never_returns (Sample.relay EmptyString Sample.one_second true).
Proof.
  split; [reflexivity | split; [reflexivity | ]].
  destruct (reconnect_never_done string Sample.parse Sample.client unit tt
              "listener:4080" EmptyString Sample.five_seconds
              Sample.one_second true eq_refl) as [Hnil Hbuilt].
  split; [exact Hnil | ].
  destruct (Hbuilt Sample.insecure_config eq_refl) as [Hnever _].
  exact Hnever.
Defined.

(** ** More proof rules *)

Section MoreMonitorFacts.

Context {E : Type -> Type} {St : Type}.
Variable allowed : St -> forall X, E X -> Prop.
Variable next : St -> forall X, E X -> X -> St.

(** The rule for [defer] with the intermediate condition computed: the
    body must end where the deferred call is allowed and leads to [Q]. *)
Lemma safe_defer_wp {R : Type} (Q : St -> R -> Prop) s
  (cleanup : E unit) (body : itree E R) :
  safe allowed next
       (fun s' r => allowed s' _ cleanup /\ Q (next s' _ cleanup tt) r)
       s body ->
  safe allowed next Q s (defer (ITree.trigger cleanup) body).
Proof.
  intros Hbody. eapply safe_defer; [exact Hbody | ].
  intros s' r H. exact H.
Qed.

(** An accepted trace that returned did so in a state where the
    postcondition holds of its result. *)
Lemma accepts_returned {R : Type} (Q : St -> R -> Prop) (tr : @trace E R) :
  forall s r,
    accepts allowed next Q s tr -> trace_ret tr = Some r -> exists s', Q s' r.
Proof.
  induction tr as [ | r0 | X e | X e x tr IH]; cbn; intros s r Hacc Hret;
    try discriminate.
  - inversion Hret; subst. exists s. exact Hacc.
  - destruct Hacc as [_ Hacc]. eapply IH; eassumption.
Qed.

End MoreMonitorFacts.


(** The traces of a tree that starts with a call. *)
Lemma is_traceF_vis_inv {E : Type -> Type} {X R : Type} (e : E X)
  (k : X -> itree E R) (tr : @trace E R) :
  is_traceF (VisF e k) tr ->
  tr = TEnd
  \/ tr = TEventEnd e
  \/ exists x tr', tr = TEventResponse e x tr' /\ is_trace (k x) tr'.
Proof.
  intros H. inversion H; subst.
  - left. reflexivity.
  - ddestruction. right. left. reflexivity.
  - ddestruction. right. right. eauto.
Qed.

Lemma is_traceF_ret_inv {E : Type -> Type} {R : Type} (r : R)
  (tr : @trace E R) :
  is_traceF (RetF r : itree' E R) tr -> tr = TEnd \/ tr = TRet r.
Proof. intros H. apply is_trace_ret_inv. exact H. Qed.

(** ** More on the trust policy *)

Section MorePolicyFacts.

Variable ConnectionKey : Type.
Variable ParseConnectionKey : string -> result ConnectionKey.
Variable ClientTLSConfig : ConnectionKey -> result Config.

(** X1. [insecure] does not relax what is asked of a key that is given:
    for a key that is not empty the two modes fail together, with the same
    error, and succeed together, the insecure result being the secure one
    with verification skipped and the server name emptied. *)
Theorem insecure_keeps_key_checks (connectionKey : string) :
  is_empty connectionKey = false ->
  let secure := clientTLSConfig ConnectionKey ParseConnectionKey
                  ClientTLSConfig connectionKey false in
  let lax := clientTLSConfig ConnectionKey ParseConnectionKey
               ClientTLSConfig connectionKey true in
  (forall err, lax = Err err <-> secure = Err err)
  /\ (forall cfg,
        secure = Ok cfg ->
        lax = Ok (set_ServerName EmptyString
                    (set_InsecureSkipVerify true cfg)))
  /\ (forall cfg, lax = Ok cfg -> exists verified, secure = Ok verified).
Proof.
  intros Hkey. cbn zeta.
  rewrite (clientTLSConfig_insecure_key _ _ _ _ Hkey).
  rewrite (clientTLSConfig_secure _ _ _ _ Hkey).
  destruct (verified_config _ _ _ connectionKey) as [v | e].
  - split; [ | split].
    + intros err. split; discriminate.
    + intros cfg Hcfg. inversion Hcfg. reflexivity.
    + intros cfg _. exists v. reflexivity.
  - split; [ | split].
    + intros err. split; intros H; exact H.
    + intros cfg Hcfg. discriminate Hcfg.
    + intros cfg Hcfg. discriminate Hcfg.
Qed.

(** X2. Every error of [clientTLSConfig] is one of three: the plain
    "connection key is required" (no [insecure], empty key), the parser's
    error wrapped with "parse connection key", or the configuration
    builder's error wrapped with "configure TLS"; the last two unwrap to
    the error they wrap and occur only for a key that is not empty. *)
Theorem clientTLSConfig_error_cases (connectionKey : string) (insecure : bool)
  (err : error) :
  clientTLSConfig ConnectionKey ParseConnectionKey ClientTLSConfig
                  connectionKey insecure = Err err ->
  (insecure = false /\ connectionKey = EmptyString
   /\ err = errorString "connection key is required")
  \/ (is_empty connectionKey = false
      /\ exists cause,
           ParseConnectionKey connectionKey = Err cause
           /\ err = Errorf_w "parse connection key" cause
           /\ Unwrap err = Some cause)
  \/ (is_empty connectionKey = false
      /\ exists key cause,
           ParseConnectionKey connectionKey = Ok key
           /\ ClientTLSConfig key = Err cause
           /\ err = Errorf_w "configure TLS" cause
           /\ Unwrap err = Some cause).
Proof.
  unfold clientTLSConfig. intros H.
  destruct connectionKey as [ | c rest]; cbn in H.
  - destruct insecure; cbn in H; [discriminate | ].
    inversion H. left. repeat split.
  - right.
    assert (Hcases :
      match ParseConnectionKey (String c rest) with
      | Err cause => err = Errorf_w "parse connection key" cause
      | Ok key =>
          match ClientTLSConfig key with
          | Err cause => err = Errorf_w "configure TLS" cause
          | Ok _ => False
          end
      end).
    { destruct insecure; cbn in H;
        destruct (ParseConnectionKey (String c rest)) as [key | cause];
        try (inversion H; reflexivity);
        destruct (ClientTLSConfig key) as [cfg | cause];
        try discriminate; inversion H; reflexivity. }
    destruct (ParseConnectionKey (String c rest)) as [key | cause].
    + right. split; [reflexivity | ].
      destruct (ClientTLSConfig key) as [cfg | cause] eqn:Hclient;
        [contradiction | ].
      exists key, cause. subst err. repeat split. exact Hclient.
    + left. split; [reflexivity | ].
      exists cause. subst err. repeat split.
Qed.

End MorePolicyFacts.

(** ** More on one attempt *)

(** Taking the calls of an attempt one after the other, every answer
    considered. *)
Ltac attempt_calls :=
  unfold connectBackAndRelay;
  repeat first
    [ apply safe_ret
    | apply safe_defer_wp
    | apply safe_call;
      [ | let x := fresh "x" in intros x; destruct x; cbn ] ].

(** Reading a returned trace off a tree whose calls are known. *)
Ltac read_trace H Hret :=
  cbn in H;
  lazymatch type of H with
  | is_traceF (RetF _) _ =>
      apply is_traceF_ret_inv in H; destruct H as [-> | ->];
      [discriminate Hret | ]
  | is_traceF (VisF _ _) _ =>
      let x := fresh "x" in
      let tr' := fresh "tr" in
      apply is_traceF_vis_inv in H;
      destruct H as [-> | [-> | [x [tr' [-> H]]]]];
      [discriminate Hret | discriminate Hret | ];
      cbn in Hret; unfold is_trace in H; destruct x; read_trace H Hret
  end.

Section MoreAttemptFacts.

Variable YamuxConfig : Type.
Variable yamuxCfg : YamuxConfig.
Variable tlsConfig : Config.
Variable connectBackAddr : string.
Variable timeout : Duration.

(** X3. An attempt that returns has ended in one of the five ways of
    [outcome] and in no other: its calls and their answers are those of
    [attempt_trace] for that outcome, and its result is that outcome's. *)
Theorem attempt_returned_traces
  (tr : @trace (relayE YamuxConfig) (option error)) (r : option error) :
  is_trace (connectBackAndRelay YamuxConfig yamuxCfg tlsConfig
                                connectBackAddr timeout) tr ->
  trace_ret tr = Some r ->
  exists o,
    tr = attempt_trace YamuxConfig yamuxCfg tlsConfig connectBackAddr timeout
                       o (TRet (attempt_result o))
    /\ r = attempt_result o.
Proof.
  unfold is_trace, connectBackAndRelay, defer. intros H Hret.
  read_trace H Hret; cbn in Hret; inversion Hret; subst r;
    first
      [ eexists (DialFailed _); split; reflexivity
      | eexists (MuxFailed _ _); split; reflexivity
      | eexists (SocksFailed _ _ _); split; reflexivity
      | eexists (ServeFailed _ _ _ _); split; reflexivity
      | eexists (ServeClean _ _ _); split; reflexivity ].
Qed.



(** X5. What an attempt hands from call to call: the multiplexer is
    started on the connection the dial returned, with [yamuxCfg]; the
    SOCKS5 server is made only after a session was started; [Serve] gets
    the server that was made and the session that was started; and each
    [Close] is of the connection or session that was returned. *)
Theorem attempt_hands_over :
  forall tr,
    is_trace (connectBackAndRelay YamuxConfig yamuxCfg tlsConfig
                                  connectBackAddr timeout) tr ->
    accepts (handoff_allowed YamuxConfig yamuxCfg)
            (handoff_next YamuxConfig)
            (fun _ (_ : option error) => True) nothing_yet tr.
Proof.
  intros tr Htr. eapply safe_accepts; [exact Htr | ].
  attempt_calls; cbn; repeat split; discriminate.
Qed.

End MoreAttemptFacts.

(** ** More on the loop and the relay *)

Section MoreLoopFacts.

Variable YamuxConfig : Type.
Variable yamuxCfg : YamuxConfig.
Variable tlsConfig : Config.
Variable connectBackAddr : string.
Variable timeout : Duration.


(** Each sleep comes straight after the reconnect line that announces
    it. *)
Lemma loop_announces (reconnectAfter : Duration) :
  safe (announce_allowed YamuxConfig) (announce_next YamuxConfig)
       (fun _ (_ : option error) => True) None
       (relay_loop YamuxConfig yamuxCfg tlsConfig connectBackAddr timeout
                   reconnectAfter).
Proof.
  unfold relay_loop.
  apply safe_iter with (Inv := fun _ _ => True); [ | exact I].
  intros s [] _. unfold relay_iteration.
  apply safe_bind with (P := fun _ _ => True).
  - attempt_calls; cbn; repeat split.
  - intros s' r _.
    apply safe_bind with (P := fun _ _ => True).
    + destruct r as [err | ]; [ | apply safe_ret; exact I].
      destruct (reconnectAfter =? 0)%Z; [apply safe_ret; exact I | ].
      apply safe_call; [exact I | intros []; apply safe_ret; exact I].
    + intros s'' [ret | ] _; [apply safe_ret; exact I | ].
      destruct (reconnectAfter =? 0)%Z; [apply safe_ret; exact I | ].
      apply safe_call; [exact I | intros []; cbn].
      apply safe_call; [reflexivity | intros []; cbn].
      apply safe_ret. exact I.
Qed.

End MoreLoopFacts.

Section MoreRelayFacts.

Variable ConnectionKey : Type.
Variable ParseConnectionKey : string -> result ConnectionKey.
Variable ClientTLSConfig : ConnectionKey -> result Config.
Variable YamuxConfig : Type.
Variable yamuxCfg : YamuxConfig.

(** How the relay can return: with the build error before any call, or,
    reconnect disabled, as its one attempt did. *)
Lemma relay_returns_inv (connectBackAddr connectionKey : string)
  (timeout reconnectAfter : Duration) (insecure : bool)
  (tr : @trace (relayE YamuxConfig) (option error)) (r : option error) :
  is_trace (runRemoteProxyRelay ConnectionKey ParseConnectionKey
              ClientTLSConfig YamuxConfig yamuxCfg connectBackAddr
              connectionKey timeout reconnectAfter insecure) tr ->
  trace_ret tr = Some r ->
  (exists cause,
      clientTLSConfig ConnectionKey ParseConnectionKey ClientTLSConfig
                      connectionKey insecure = Err cause
      /\ tr = TRet r
      /\ r = Some (Errorf_w "build TLS config" cause))
  \/ (reconnectAfter = 0%Z
      /\ exists tlsConfig o,
           clientTLSConfig ConnectionKey ParseConnectionKey ClientTLSConfig
                           connectionKey insecure = Ok tlsConfig
           /\ tr = attempt_trace YamuxConfig yamuxCfg tlsConfig
                     connectBackAddr timeout o (TRet (attempt_result o))
           /\ r = attempt_result o).
Proof.
  unfold runRemoteProxyRelay. intros Htr Hret.
  destruct (clientTLSConfig _ _ _ connectionKey insecure)
    as [tlsConfig | cause].
  - right. destruct (Z.eq_dec reconnectAfter 0) as [-> | Hd].
    + split; [reflexivity | ].
      destruct (eutt_trace_eq _ _
                  (loop_no_reconnect YamuxConfig yamuxCfg tlsConfig
                     connectBackAddr timeout)) as [Hto _].
      destruct (attempt_returned_traces _ _ _ _ _ _ _ (Hto _ Htr) Hret)
        as [o [Htrace Hres]].
      exists tlsConfig, o. repeat split; assumption.
    + exfalso.
      assert (Hnone : trace_ret tr = None).
      { eapply accepts_never_returns. eapply safe_accepts; [exact Htr | ].
        apply loop_never_leaves. exact Hd. }
      congruence.
  - left. exists cause. split; [reflexivity | ].
    destruct (is_trace_ret_inv _ _ Htr) as [-> | ->]; cbn in Hret;
      [discriminate | ].
    inversion Hret. split; reflexivity.
Qed.



(** X7. The loop tests reconnect-after against zero only, so a negative
    value enables reconnect as a positive one does: once the configuration
    is built the relay never returns, and after any attempts, however they
    ended, it has slept that negative duration after each and is dialing
    again. *)
Theorem negative_reconnect_loops (connectBackAddr connectionKey : string)
  (timeout reconnectAfter : Duration) (insecure : bool) (tlsConfig : Config) :
  clientTLSConfig ConnectionKey ParseConnectionKey ClientTLSConfig
                  connectionKey insecure = Ok tlsConfig ->
  (reconnectAfter < 0)%Z ->
  let relay := runRemoteProxyRelay ConnectionKey ParseConnectionKey
                 ClientTLSConfig YamuxConfig yamuxCfg connectBackAddr
                 connectionKey timeout reconnectAfter insecure in
  never_returns relay
  /\ (forall os,
        is_trace relay
          (rounds_trace YamuxConfig yamuxCfg tlsConfig connectBackAddr
             timeout reconnectAfter os
             (TEventEnd (dial_call YamuxConfig tlsConfig connectBackAddr
                                   timeout)))).
Proof.
  intros Hbuilt Hneg. cbn zeta. rewrite (relay_built _ _ _ _ _ _ _ _ _ _ _ Hbuilt).
  assert (Hd : reconnectAfter <> 0%Z) by lia.
  split.
  - intros tr Htr. eapply accepts_never_returns.
    eapply safe_accepts; [exact Htr | ]. apply loop_never_leaves. exact Hd.
  - intros os. apply loop_rounds. exact Hd.
Qed.

(** X8. The relay never sleeps unannounced: in every execution each sleep
    comes directly after the "reconnecting after" line, and the duration
    slept is the one that line was given. *)
Theorem relay_announces_sleep (connectBackAddr connectionKey : string)
  (timeout reconnectAfter : Duration) (insecure : bool) :
  forall tr,
    is_trace (runRemoteProxyRelay ConnectionKey ParseConnectionKey
                ClientTLSConfig YamuxConfig yamuxCfg connectBackAddr
                connectionKey timeout reconnectAfter insecure) tr ->
    accepts (announce_allowed YamuxConfig) (announce_next YamuxConfig)
            (fun _ (_ : option error) => True) None tr.
Proof.
  intros tr Htr. eapply safe_accepts; [exact Htr | ].
  unfold runRemoteProxyRelay.
  destruct (clientTLSConfig _ _ _ connectionKey insecure)
    as [tlsConfig | err].
  - apply loop_announces.
  - apply safe_ret. exact I.
Qed.




(** X11. An error the relay returns always names its stage: it is some
    cause wrapped with one of the five stages of [relay_stages], its
    message is the stage, a colon and the message of the cause, and it
    unwraps to the cause. *)
Theorem returned_error_names_stage (connectBackAddr connectionKey : string)
  (timeout reconnectAfter : Duration) (insecure : bool)
  (tr : @trace (relayE YamuxConfig) (option error)) (err : error) :
  is_trace (runRemoteProxyRelay ConnectionKey ParseConnectionKey
              ClientTLSConfig YamuxConfig yamuxCfg connectBackAddr
              connectionKey timeout reconnectAfter insecure) tr ->
  trace_ret tr = Some (Some err) ->
  exists stage cause,
    In stage relay_stages
    /\ err = Errorf_w stage cause
    /\ Error err = stage ++ ": " ++ Error cause
    /\ Unwrap err = Some cause.
Proof.
  intros Htr Hret.
  destruct (relay_returns_inv _ _ _ _ _ _ _ Htr Hret)
    as [[cause [_ [_ Herr]]] | [_ [tlsConfig [o [_ [_ Herr]]]]]].
  - inversion Herr. exists "build TLS config", cause.
    split; [left; reflexivity | repeat split].
  - destruct o as [cause | conn cause | conn session cause
                   | conn session server cause | conn session server];
      cbn in Herr; inversion Herr.
    + exists "dial", cause.
      split; [right; left; reflexivity | repeat split].
    + exists "initialize multiplexer", cause.
      split; [right; right; left; reflexivity | repeat split].
    + exists "initialize socks5 server", cause.
      split; [right; right; right; left; reflexivity | repeat split].
    + exists "socks5 server", cause.
      split; [right; right; right; right; left; reflexivity | repeat split].
Qed.

(** X12. The relay returns nil only with reconnect-after zero and after a
    session that was dialed, multiplexed and served and whose [Serve]
    answered nil, closed in order. *)
Theorem nil_return_is_clean_session (connectBackAddr connectionKey : string)
  (timeout reconnectAfter : Duration) (insecure : bool)
  (tr : @trace (relayE YamuxConfig) (option error)) :
  is_trace (runRemoteProxyRelay ConnectionKey ParseConnectionKey
              ClientTLSConfig YamuxConfig yamuxCfg connectBackAddr
              connectionKey timeout reconnectAfter insecure) tr ->
  trace_ret tr = Some None ->
  reconnectAfter = 0%Z
  /\ exists tlsConfig conn session server,
       clientTLSConfig ConnectionKey ParseConnectionKey ClientTLSConfig
                       connectionKey insecure = Ok tlsConfig
       /\ tr = attempt_trace YamuxConfig yamuxCfg tlsConfig connectBackAddr
                 timeout (ServeClean conn session server) (TRet None).
Proof.
  intros Htr Hret.
  destruct (relay_returns_inv _ _ _ _ _ _ _ Htr Hret)
    as [[cause [_ [_ Herr]]] | [Hd [tlsConfig [o [Hbuilt [Htrace Hres]]]]]];
    [discriminate Herr | ].
  split; [exact Hd | ].
  destruct o as [cause | conn cause | conn session cause
                 | conn session server cause | conn session server];
    cbn in Hres; try discriminate Hres.
  exists tlsConfig, conn, session, server. split; assumption.
Qed.

End MoreRelayFacts.

(** ** The command *)

Section CommandFacts.

Variable ConnectionKey : Type.
Variable ParseConnectionKey : string -> result ConnectionKey.
Variable ClientTLSConfig : ConnectionKey -> result Config.
Variable YamuxConfig : Type.
Variable yamuxCfg : YamuxConfig.
Variable Port : Type.
Variable DefaultListenPort : Port.
Variable withDefaultPort : string -> Port -> string.
Variable fromEnvWithFallback : string -> string -> string.
Variable ConnectionKeyEnvVariable : string.
Variable defaultConnectionKey : string.



End CommandFacts.

(** ** The further theorems at work in the sample environment *)

(** X1 on the key "k3y". *)
Lemma insecure_keeps_key_checks_witness :
  is_empty "k3y" = false
  /\ Sample.config "k3y" false = Ok Sample.verified
  /\ Sample.config "k3y" true
     = Ok (set_ServerName EmptyString
             (set_InsecureSkipVerify true Sample.verified)).
Proof.
  split; [reflexivity | split; [reflexivity | ]].
  destruct (insecure_keeps_key_checks string Sample.parse Sample.client
              "k3y" eq_refl) as [_ [Hok _]].
  apply Hok. reflexivity.
Defined.

(** X2 on a key that does not parse. *)
Lemma clientTLSConfig_error_cases_witness :
  let cause := errorString "invalid connection key" in
  Sample.config "malformed" false
  = Err (Errorf_w "parse connection key" cause)
  /\ ((false = false /\ "malformed" = EmptyString
       /\ Errorf_w "parse connection key" cause
          = errorString "connection key is required")
      \/ (is_empty "malformed" = false
          /\ exists c,
               Sample.parse "malformed" = Err c
               /\ Errorf_w "parse connection key" cause
                  = Errorf_w "parse connection key" c
               /\ Unwrap (Errorf_w "parse connection key" cause) = Some c)
      \/ (is_empty "malformed" = false
          /\ exists key c,
               Sample.parse "malformed" = Ok key
               /\ Sample.client key = Err c
               /\ Errorf_w "parse connection key" cause
                  = Errorf_w "configure TLS" c
               /\ Unwrap (Errorf_w "parse connection key" cause) = Some c)).
Proof.
  cbn zeta. split; [reflexivity | ].
  apply (clientTLSConfig_error_cases string Sample.parse Sample.client
           "malformed" false). reflexivity.
Defined.

(** X3 on a refused dial. *)
Lemma attempt_returned_traces_witness :
  let tr := TEventResponse
              (dial_call unit Sample.insecure_config "listener:4080"
                         Sample.five_seconds)
              (Err Sample.refused)
              (TRet (Some (Errorf_w "dial" Sample.refused))) in
  is_trace Sample.attempt tr
  /\ trace_ret tr = Some (Some (Errorf_w "dial" Sample.refused))
  /\ exists o,
       tr = attempt_trace unit tt Sample.insecure_config "listener:4080"
              Sample.five_seconds o (TRet (attempt_result o))
       /\ Some (Errorf_w "dial" Sample.refused) = attempt_result o.
Proof.
  cbn zeta.
  assert (Htr : is_trace Sample.attempt
                  (TEventResponse
                     (dial_call unit Sample.insecure_config "listener:4080"
                                Sample.five_seconds)
                     (Err Sample.refused)
                     (TRet (Some (Errorf_w "dial" Sample.refused)))))
    by (unfold is_trace; cbn; repeat (constructor; cbn)).
  split; [exact Htr | split; [reflexivity | ]].
  apply (attempt_returned_traces unit tt Sample.insecure_config
           "listener:4080" Sample.five_seconds _ _ Htr). reflexivity.
Defined.


(** X5 on a session that is served and ends cleanly. *)
Lemma attempt_hands_over_witness :
  let tr := attempt_trace unit tt Sample.insecure_config "listener:4080"
              Sample.five_seconds (ServeClean Sample.peer 1 2) (TRet None) in
  is_trace Sample.attempt tr
  /\ accepts (handoff_allowed unit tt) (handoff_next unit)
             (fun _ (_ : option error) => True) nothing_yet tr.
Proof.
  cbn zeta.
  assert (Htr : is_trace Sample.attempt
                  (attempt_trace unit tt Sample.insecure_config
                     "listener:4080" Sample.five_seconds
                     (ServeClean Sample.peer 1 2) (TRet None)))
    by (unfold is_trace; cbn; repeat (constructor; cbn)).
  split; [exact Htr | ].
  apply (attempt_hands_over unit tt Sample.insecure_config "listener:4080"
           Sample.five_seconds). exact Htr.
Defined.

(** The round used below: a refused dial with reconnect after a second,
    up to the next dial. *)
Lemma sample_refused_round :
  is_trace (Sample.relay EmptyString Sample.one_second true)
    (round_trace unit tt Sample.insecure_config "listener:4080"
       Sample.five_seconds Sample.one_second (DialFailed Sample.refused)
       (TEventEnd (dial_call unit Sample.insecure_config "listener:4080"
                             Sample.five_seconds))).
Proof.
  unfold is_trace. cbn. repeat (apply TraceVisContinue; cbn).
  apply TraceTau. cbn. apply TraceVisEnd.
Defined.


(** X7 on reconnect-after minus one nanosecond. *)
Lemma negative_reconnect_loops_witness :
  Sample.config EmptyString true = Ok Sample.insecure_config
  /\ (-1 < 0)%Z
  /\ never_returns (Sample.relay EmptyString (-1)%Z true).
Proof.
  split; [reflexivity | split; [reflexivity | ]].
  destruct (negative_reconnect_loops string Sample.parse Sample.client
              unit tt "listener:4080" EmptyString Sample.five_seconds
              (-1)%Z true Sample.insecure_config eq_refl eq_refl)
    as [Hnever _].
  exact Hnever.
Defined.

(** X8 on the refused round. *)
Lemma relay_announces_sleep_witness :
  let tr := round_trace unit tt Sample.insecure_config "listener:4080"
              Sample.five_seconds Sample.one_second
              (DialFailed Sample.refused)
              (TEventEnd (dial_call unit Sample.insecure_config
                                    "listener:4080" Sample.five_seconds)) in
  is_trace (Sample.relay EmptyString Sample.one_second true) tr
  /\ accepts (announce_allowed unit) (announce_next unit)
             (fun _ (_ : option error) => True) None tr.
Proof.
  cbn zeta. split; [exact sample_refused_round | ].
  apply (relay_announces_sleep string Sample.parse Sample.client unit tt
           "listener:4080" EmptyString Sample.five_seconds Sample.one_second
           true).
  exact sample_refused_round.
Defined.



(** X11 on the missing key, with reconnect enabled. *)
Lemma returned_error_names_stage_witness :
  let err := Errorf_w "build TLS config"
               (errorString "connection key is required") in
  is_trace (Sample.relay EmptyString Sample.one_second false)
           (TRet (Some err))
  /\ exists stage cause,
       In stage relay_stages
       /\ err = Errorf_w stage cause
       /\ Error err = stage ++ ": " ++ Error cause
       /\ Unwrap err = Some cause.
Proof.
  cbn zeta.
  assert (Htr : is_trace (Sample.relay EmptyString Sample.one_second false)
                  (TRet (Some (Errorf_w "build TLS config"
                          (errorString "connection key is required")))))
    by (unfold is_trace; cbn; constructor).
  split; [exact Htr | ].
  apply (returned_error_names_stage string Sample.parse Sample.client unit tt
           "listener:4080" EmptyString Sample.five_seconds Sample.one_second
           false _ _ Htr).
  reflexivity.
Defined.

(** X12 on the clean execution. *)
Lemma nil_return_is_clean_session_witness :
  let tr := attempt_trace unit tt Sample.insecure_config "listener:4080"
              Sample.five_seconds (ServeClean Sample.peer 1 2) (TRet None) in
  is_trace (Sample.relay EmptyString 0%Z true) tr
  /\ trace_ret tr = Some None
  /\ 0%Z = 0%Z
  /\ exists tlsConfig conn session server,
       Sample.config EmptyString true = Ok tlsConfig
       /\ tr = attempt_trace unit tt tlsConfig "listener:4080"
                 Sample.five_seconds (ServeClean conn session server)
                 (TRet None).
Proof.
  cbn zeta. split; [exact sample_clean_session | split; [reflexivity | ]].
  apply (nil_return_is_clean_session string Sample.parse Sample.client unit
           tt "listener:4080" EmptyString Sample.five_seconds 0%Z true _
           sample_clean_session).
  reflexivity.
Defined.


